(** * social-book: the post lifecycle, the upload pipeline and the sanitizer

    A shallow embedding of [src/posts.py], [src/app_tasks.py],
    [src/regexes.py] and [src/constants.py].

    Python values are modelled as follows.
    - [str] is a list of Unicode code points ([list N]);
    - [bytes] is a list of [Byte.byte];
    - the request's [form], [files] and [headers] are finite maps keyed by
      the literal keys the handlers use;
    - the MongoDB collection and the GridFS bucket are lists of documents
      kept in insertion order, with the unique [_id] index enforced on
      insertion;
    - a handler is a function from the request, the values it draws from
      the environment (fresh identifiers, the clock) and the stores to an
      outcome, the new stores and the log of store calls it issued. *)

From Stdlib Require Import NArith ZArith List Lia Strings.Byte Ascii String.
From Stdlib Require Import Sorted.
From stdpp Require Import base option list gmap strings pretty.

Local Open Scope N_scope.

(** ** Python values *)

Definition str := list N.
Definition bytes := list byte.

#[global] Instance byte_eq_dec : EqDecision byte := Byte.byte_eq_dec.

(** A literal of the source, as a Python [str]. *)
Definition py (s : string) : str := map N_of_ascii (list_ascii_of_string s).
Arguments py : simpl never.

(** [bytes([n])] for [n < 256]. *)
Definition byte_of_N (n : N) : byte := default x00 (Byte.of_N n).

(** A bytes literal of the source. *)
Definition pyb (s : string) : bytes := map byte_of_N (py s).

(** *** [str.isspace] on one code point

    This is the set [Py_UNICODE_ISSPACE] accepts; both [str.strip()] and
    the class [\s] of a [str] pattern use it. *)
Definition is_space (c : N) : bool :=
  ((9 <=? c) && (c <=? 13)) || ((28 <=? c) && (c <=? 32))
  || (c =? 133) || (c =? 160) || (c =? 5760)
  || ((8192 <=? c) && (c <=? 8202))
  || (c =? 8232) || (c =? 8233) || (c =? 8239) || (c =? 8287) || (c =? 12288).

Fixpoint lstrip (s : str) : str :=
  match s with
  | c :: t => if is_space c then lstrip t else s
  | [] => []
  end.

Definition rstrip (s : str) : str := rev (lstrip (rev s)).

(** [s.strip()] *)
Definition strip (s : str) : str := rstrip (lstrip s).

(** ** base64 (RFC 4648, the standard alphabet), as [base64.b64encode] *)

Definition b64_char (n : N) : byte :=
  byte_of_N (if n <? 26 then 65 + n
             else if n <? 52 then 97 + (n - 26)
             else if n <? 62 then 48 + (n - 52)
             else if n =? 62 then 43 else 47).

Definition b64_pad : byte := byte_of_N 61.

Fixpoint b64encode (bs : bytes) : bytes :=
  match bs with
  | [] => []
  | [a] =>
      let n := Byte.to_N a * 65536 in
      [b64_char (n / 262144); b64_char ((n / 4096) mod 64); b64_pad; b64_pad]
  | [a; b] =>
      let n := Byte.to_N a * 65536 + Byte.to_N b * 256 in
      [b64_char (n / 262144); b64_char ((n / 4096) mod 64);
       b64_char ((n / 64) mod 64); b64_pad]
  | a :: b :: c :: rest =>
      let n := Byte.to_N a * 65536 + Byte.to_N b * 256 + Byte.to_N c in
      b64_char (n / 262144) :: b64_char ((n / 4096) mod 64)
      :: b64_char ((n / 64) mod 64) :: b64_char (n mod 64) :: b64encode rest
  end.

(** The inverse reading of the alphabet. *)
Definition b64_index (b : byte) : option N :=
  let v := Byte.to_N b in
  if (65 <=? v) && (v <=? 90) then Some (v - 65)
  else if (97 <=? v) && (v <=? 122) then Some (v - 97 + 26)
  else if (48 <=? v) && (v <=? 57) then Some (v - 48 + 52)
  else if v =? 43 then Some 62
  else if v =? 47 then Some 63
  else None.

(** A strict base64 decoder: what a reader of the stored payload has to
    run to get the plain bytes back. The source has no decoder. *)
Fixpoint b64decode (cs : bytes) : option bytes :=
  match cs with
  | [] => Some []
  | c1 :: c2 :: c3 :: c4 :: rest =>
      s1 ← b64_index c1;
      s2 ← b64_index c2;
      if decide (c3 = b64_pad) then
        if decide (c4 = b64_pad ∧ rest = [] ∧ s2 mod 16 = 0)
        then Some [byte_of_N (s1 * 4 + s2 / 16)] else None
      else
        s3 ← b64_index c3;
        if decide (c4 = b64_pad) then
          if decide (rest = [] ∧ s3 mod 4 = 0)
          then Some [byte_of_N (s1 * 4 + s2 / 16);
                     byte_of_N ((s2 mod 16) * 16 + s3 / 4)]
          else None
        else
          s4 ← b64_index c4;
          tl ← b64decode rest;
          Some (byte_of_N (s1 * 4 + s2 / 16)
                :: byte_of_N ((s2 mod 16) * 16 + s3 / 4)
                :: byte_of_N ((s3 mod 4) * 64 + s4) :: tl)
  | _ => None
  end.

(** ** UTF-8, as [str.encode('utf-8')] and [bytes.decode('utf-8')] *)

Definition utf8_encode_cp (c : N) : option bytes :=
  if c <? 128 then Some [byte_of_N c]
  else if c <? 2048 then
    Some [byte_of_N (192 + c / 64); byte_of_N (128 + c mod 64)]
  else if c <? 65536 then
    if (55296 <=? c) && (c <=? 57343) then None (* UnicodeEncodeError *)
    else Some [byte_of_N (224 + c / 4096); byte_of_N (128 + (c / 64) mod 64);
               byte_of_N (128 + c mod 64)]
  else if c <? 1114112 then
    Some [byte_of_N (240 + c / 262144); byte_of_N (128 + (c / 4096) mod 64);
          byte_of_N (128 + (c / 64) mod 64); byte_of_N (128 + c mod 64)]
  else None.

Fixpoint utf8_encode (s : str) : option bytes :=
  match s with
  | [] => Some []
  | c :: t => e ← utf8_encode_cp c; r ← utf8_encode t; Some (e ++ r)
  end.

Definition is_cont (b : byte) : bool :=
  (128 <=? Byte.to_N b) && (Byte.to_N b <? 192).

Definition cont (b : byte) : N := Byte.to_N b - 128.

Fixpoint utf8_decode (bs : bytes) : option str :=
  match bs with
  | [] => Some []
  | b0 :: t0 =>
      let x := Byte.to_N b0 in
      if x <? 128 then r ← utf8_decode t0; Some (x :: r)
      else if x <? 194 then None
      else if x <? 224 then
        match t0 with
        | b1 :: t1 =>
            if is_cont b1
            then r ← utf8_decode t1; Some (((x - 192) * 64 + cont b1) :: r)
            else None
        | _ => None
        end
      else if x <? 240 then
        match t0 with
        | b1 :: b2 :: t2 =>
            let c := (x - 224) * 4096 + cont b1 * 64 + cont b2 in
            if is_cont b1 && is_cont b2 && (2048 <=? c)
               && negb ((55296 <=? c) && (c <=? 57343))
            then r ← utf8_decode t2; Some (c :: r)
            else None
        | _ => None
        end
      else if x <? 245 then
        match t0 with
        | b1 :: b2 :: b3 :: t3 =>
            let c := (x - 240) * 262144 + cont b1 * 4096
                     + cont b2 * 64 + cont b3 in
            if is_cont b1 && is_cont b2 && is_cont b3
               && (65536 <=? c) && (c <? 1114112)
            then r ← utf8_decode t3; Some (c :: r)
            else None
        | _ => None
        end
      else None
  end.

(** ** Regular expressions, as [re.fullmatch] reads a [str] pattern

    The fragment of [src/regexes.py] that the post handlers use: anchors,
    character classes, concatenation, alternation and repetition. *)

Inductive class_item :=
| CChar (c : N)            (* a literal or an escaped literal *)
| CRange (lo hi : N)       (* lo-hi *)
| CSpace.                  (* \s *)

Inductive regex :=
| REps
| RBol                     (* ^ *)
| REol                     (* $ *)
| RSet (items : list class_item)
| RCat (r1 r2 : regex)
| RAlt (r1 r2 : regex)
| RStar (r : regex)
| RPlus (r : regex).

Definition in_item (c : N) (i : class_item) : bool :=
  match i with
  | CChar d => c =? d
  | CRange lo hi => (lo <=? c) && (c <=? hi)
  | CSpace => is_space c
  end.

Definition in_class (items : list class_item) (c : N) : bool :=
  existsb (in_item c) items.

(** A position of the matcher: how many code points were consumed, and
    what is left of the subject. *)
Definition pos := (nat * str)%type.

Definition progress (p q : pos) : bool := (length q.2 <? length p.2)%nat.

(** Zero or more rounds of [step], each of which has to consume input. *)
Fixpoint star_from (step : pos → list pos) (fuel : nat) (p : pos) : list pos :=
  p :: match fuel with
       | O => []
       | S n => List.filter (progress p) (step p) ≫= star_from step n
       end.

(** All the positions at which a match of [r] that starts at [p] can end. *)
Fixpoint run (r : regex) (p : pos) : list pos :=
  match r with
  | REps => [p]
  | RBol => match p.1 with O => [p] | S _ => [] end
  | REol => match p.2 with
            | [] => [p]
            | [c] => if c =? 10 then [p] else []
            | _ => []
            end
  | RSet items => match p.2 with
                  | c :: t => if in_class items c then [(S p.1, t)] else []
                  | [] => []
                  end
  | RCat r1 r2 => run r1 p ≫= run r2
  | RAlt r1 r2 => run r1 p ++ run r2 p
  | RStar r1 => star_from (run r1) (length p.2) p
  | RPlus r1 => run r1 p ≫= (λ q, star_from (run r1) (length q.2) q)
  end.

Definition at_end (p : pos) : bool := match p.2 with [] => true | _ => false end.

(** [re.fullmatch(pattern, value)], read for its truth value: a match
    object is truthy, [None] is not. *)
Definition re_fullmatch (pattern : regex) (value : str) : bool :=
  existsb at_end (run pattern (O, value)).

(** [POST_REGEX] of [src/regexes.py]: [^], then one or more of the class
    A-Z a-z 0-9 \s . , ! ? - apostrophe, double quote, \n, \r, then [$]. *)
Definition post_class : list class_item :=
  [CRange 65 90; CRange 97 122; CRange 48 57; CSpace;
   CChar 46; CChar 44; CChar 33; CChar 63; CChar 45; CChar 39; CChar 34;
   CChar 10; CChar 13].

Definition POST_REGEX : regex := RCat RBol (RCat (RPlus (RSet post_class)) REol).

(** [TEXT_REGEX]: [^], one or more of A-Z a-z 0-9, [$]. *)
Definition TEXT_REGEX : regex :=
  RCat RBol (RCat (RPlus (RSet [CRange 65 90; CRange 97 122; CRange 48 57])) REol).

(** *** The other patterns of [src/regexes.py]

    [LEGAL_TEXT_REGEX], [EMAIL_REGEX] and [GEN_REGEX] are in the fragment. [PASS_REGEX] (look-aheads), [NUM_REGEX] and [DATE_REGEX] (the
    class \d of all Unicode decimal digits) are not, and are left out. *)

(** A run of literal characters. *)
Definition lit (s : str) : regex := foldr (λ c r, RCat (RSet [CChar c]) r) REps s.

(** [LEGAL_TEXT_REGEX]: [^], one or more of A-Z a-z, [$]. *)
Definition LEGAL_TEXT_REGEX : regex :=
  RCat RBol (RCat (RPlus (RSet [CRange 65 90; CRange 97 122])) REol).

(** The classes of [EMAIL_REGEX]: a-z 0-9 . _ % + - before the at sign,
    a-z 0-9 . - after it, a-z for the last label. *)
Definition email_local : list class_item :=
  [CRange 97 122; CRange 48 57; CChar 46; CChar 95; CChar 37; CChar 43; CChar 45].
Definition email_domain : list class_item :=
  [CRange 97 122; CRange 48 57; CChar 46; CChar 45].
Definition email_tld : list class_item := [CRange 97 122].

(** [EMAIL_REGEX]: local+ @ domain+ \. tld{2,} [$] (no [^]: [re.fullmatch]
    anchors the start). *)
Definition EMAIL_REGEX : regex :=
  RCat (RPlus (RSet email_local))
    (RCat (RSet [CChar 64])
       (RCat (RPlus (RSet email_domain))
          (RCat (RSet [CChar 46])
             (RCat (RSet email_tld)
                (RCat (RSet email_tld)
                   (RCat (RStar (RSet email_tld)) REol)))))).

(** The five values of [GEN_REGEX]. *)
Definition genders : list str :=
  [py "male"; py "female"; py "nonbinary"; py "other"; py "prefer not to say"].

(** [GEN_REGEX]: [^], one of the five alternatives, [$]. *)
Definition GEN_REGEX : regex :=
  RCat RBol
    (RCat (RAlt (lit (py "male"))
             (RAlt (lit (py "female"))
                (RAlt (lit (py "nonbinary"))
                   (RAlt (lit (py "other")) (lit (py "prefer not to say"))))))
       REol).

(** ** [bson.ObjectId] *)

Definition hex_digit (n : N) : N := if n <? 10 then 48 + n else 87 + n.

(** [binascii.hexlify(b).decode()] *)
Definition hexlify (bs : bytes) : str :=
  bs ≫= (λ b, [hex_digit (Byte.to_N b / 16); hex_digit (Byte.to_N b mod 16)]).

Definition hex_val (c : N) : option N :=
  if (48 <=? c) && (c <=? 57) then Some (c - 48)
  else if (97 <=? c) && (c <=? 102) then Some (c - 87)
  else if (65 <=? c) && (c <=? 70) then Some (c - 55)
  else None.

Definition is_ascii_space (c : N) : bool := ((9 <=? c) && (c <=? 13)) || (c =? 32).

(** [bytes.fromhex(s)]: pairs of hexadecimal digits, ASCII whitespace
    allowed between the pairs; [None] stands for [ValueError]. *)
Fixpoint fromhex (s : str) : option bytes :=
  match s with
  | [] => Some []
  | c :: t =>
      if is_ascii_space c then fromhex t
      else match t with
           | d :: rest =>
               h ← hex_val c; l ← hex_val d; r ← fromhex rest;
               Some (byte_of_N (h * 16 + l) :: r)
           | [] => None
           end
  end.

Record ObjectId := { binary : bytes }.

#[global] Instance ObjectId_eq_dec : EqDecision ObjectId.
Proof. solve_decision. Defined.

(** [str(oid)] *)
Definition ObjectId_str (o : ObjectId) : str := hexlify (binary o).

(** [ObjectId(s)] for a [str]: 24 characters that [bytes.fromhex] reads;
    [None] stands for [InvalidId]. *)
Definition ObjectId_parse (s : str) : option ObjectId :=
  if (length s =? 24)%nat then Build_ObjectId <$> fromhex s else None.

(** [bool(oid)]: the class defines neither [__bool__] nor [__len__], so
    every instance is truthy. *)
Definition ObjectId_bool (o : ObjectId) : bool := true.

(** ** [src/constants.py] *)

Definition ALLOWED_FILE_EXTENSIONS : list str :=
  [py "png"; py "jpg"; py "jpeg"; py "gif"; py "mp4"; py "mov"].
Definition ALLOWED_MIME_TYPES : list str :=
  [py "image/jpeg"; py "image/png"; py "image/gif"; py "video/mp4";
   py "video/quicktime"].
Definition MAX_FILE_SIZE_BYTES : N := 50 * 1024 * 1024.

Definition HTTP_BAD_REQUEST : N := 400.
Definition HTTP_FORBIDDEN : N := 403.
Definition HTTP_PAYLOAD_TOO_LARGE : N := 413.
Definition HTTP_INTERNAL_SERVER_ERROR : N := 500.

Definition ERROR_FILE_TOO_LARGE : str := py "File too large".
Definition ERROR_INVALID_FILE_TYPE : str := py "Invalid file type".
Definition ERROR_FILE_TYPE_NOT_ALLOWED : str := py "File type not allowed".
Definition ERROR_EMPTY_FILE : str := py "Empty File".

(** ** Requests, documents and stores *)

(** What [upload_file] can return and what ends up under a post's
    ['attachment'] key: [None], an [ObjectId], a bare message, or a
    (message, status) pair. *)
Inductive value :=
| VNone
| VObjectId (o : ObjectId)
| VStr (s : str)
| VPair (s : str) (n : N).

#[global] Instance value_eq_dec : EqDecision value.
Proof. solve_decision. Defined.

(** werkzeug's [FileStorage]: the client's file name and the stream. *)
Record FileStorage := { filename : str; stream : bytes }.

(** [bool(file)] is [bool(file.filename)]. *)
Definition str_bool (s : str) : bool := match s with [] => false | _ => true end.
Definition FileStorage_bool (f : FileStorage) : bool := str_bool (filename f).

Record Request := {
  headers : gmap string str;
  form : gmap string str;
  files : gmap string FileStorage;
  current_user_id : str            (* current_user.id, behind login_required *)
}.

(** What one request draws from outside: the identifiers that [ObjectId()]
    generates (for a post and for a file), the clock and [uuid.uuid4()]. *)
Record Env := {
  new_post_id : ObjectId;
  new_file_id : ObjectId;
  utcnow : Z;
  uuid4 : str
}.

Record Post := {
  post__id : ObjectId;
  post_username : str;
  post_content : bytes;
  post_attachment : value;
  post_created_at : Z;
  post_likes : list str;
  post_comments : list str
}.

Record GridFile := {
  file__id : ObjectId;
  file_data : bytes;
  file_filename : str;
  file_content_type : str;
  file_upload_date : Z
}.

(** The calls the handlers issue to the content store and the blob store. *)
Inductive call :=
| posts_find (username : option str)
| posts_find_one (id : ObjectId) (username : str)
| posts_insert_one (doc : Post)
| posts_update_one (id : ObjectId) (username : str) (fields : gmap string bytes)
| posts_delete_one (id : ObjectId) (username : str)
| fs_put (data : bytes) (name : str) (content_type : str)
| fs_delete (id : option ObjectId).

Record World := {
  posts : list Post;        (* get_db_posts *)
  fs : list GridFile;       (* get_db_file *)
  calls : list call
}.

Definition empty_world : World := {| posts := []; fs := []; calls := [] |}.

Inductive exn :=
| BadRequestKeyError (key : string)   (* werkzeug: a KeyError that is a 400 *)
| InvalidId (oid : str)
| DuplicateKeyError
| FileExists
| UnicodeEncodeError
| UnicodeDecodeError.

Inductive result (A : Type) :=
| Ok (a : A)
| Raise (e : exn).
Arguments Ok {A} a.
Arguments Raise {A} e.

(** Statements of a handler: they read and write the stores and may raise. *)
Definition M (A : Type) : Type := World → result A * World.

#[global] Instance M_ret : MRet M := λ A a w, (Ok a, w).
#[global] Instance M_bind : MBind M := λ A B f m w,
  match m w with
  | (Ok a, w') => f a w'
  | (Raise e, w') => (Raise e, w')
  end.

Definition raise {A} (e : exn) : M A := λ w, (Raise e, w).

Definition try_except {A} (body : M A) (handler : exn → M A) : M A := λ w,
  match body w with
  | (Ok a, w') => (Ok a, w')
  | (Raise e, w') => handler e w'
  end.

Definition record_call (c : call) (w : World) : World :=
  {| posts := posts w; fs := fs w; calls := calls w ++ [c] |}.

(** *** The content store (a MongoDB collection) *)

Definition id_owner (id : ObjectId) (user : str) (p : Post) : bool :=
  bool_decide (post__id p = id) && bool_decide (post_username p = user).

(** [insert_one(doc)]: the driver adds the [_id] that [ObjectId()]
    generates; the collection's unique index on [_id] refuses a second
    document with it. *)
Definition insert_one (oid : ObjectId) (doc : ObjectId → Post) : M ObjectId := λ w,
  let w1 := record_call (posts_insert_one (doc oid)) w in
  if bool_decide (oid ∈ map post__id (posts w)) then (Raise DuplicateKeyError, w1)
  else (Ok oid, {| posts := posts w1 ++ [doc oid]; fs := fs w1; calls := calls w1 |}).

Definition find_one (id : ObjectId) (user : str) : M (option Post) := λ w,
  (Ok (List.find (id_owner id user) (posts w)),
   record_call (posts_find_one id user) w).

Definition apply_set (fields : gmap string bytes) (p : Post) : Post :=
  match fields !! "content"%string with
  | Some c =>
      {| post__id := post__id p; post_username := post_username p;
         post_content := c; post_attachment := post_attachment p;
         post_created_at := post_created_at p; post_likes := post_likes p;
         post_comments := post_comments p |}
  | None => p
  end.

Fixpoint update_first (f : Post → bool) (g : Post → Post) (l : list Post)
  : nat * list Post :=
  match l with
  | [] => (O, [])
  | p :: t => if f p then (1%nat, g p :: t)
              else let r := update_first f g t in (r.1, p :: r.2)
  end.

(** [update_one({_id: id, username: user}, {$set: fields})], returning
    [matched_count]. *)
Definition update_one (id : ObjectId) (user : str) (fields : gmap string bytes)
  : M nat := λ w,
  let r := update_first (id_owner id user) (apply_set fields) (posts w) in
  (Ok r.1, {| posts := r.2; fs := fs w;
              calls := calls w ++ [posts_update_one id user fields] |}).

Fixpoint delete_first (f : Post → bool) (l : list Post) : nat * list Post :=
  match l with
  | [] => (O, [])
  | p :: t => if f p then (1%nat, t)
              else let r := delete_first f t in (r.1, p :: r.2)
  end.

(** [delete_one({_id: id, username: user})], returning [deleted_count]. *)
Definition delete_one (id : ObjectId) (user : str) : M nat := λ w,
  let r := delete_first (id_owner id user) (posts w) in
  (Ok r.1, {| posts := r.2; fs := fs w;
              calls := calls w ++ [posts_delete_one id user] |}).

Fixpoint insert_desc (p : Post) (l : list Post) : list Post :=
  match l with
  | [] => [p]
  | q :: t => if (post_created_at q <? post_created_at p)%Z then p :: l
              else q :: insert_desc p t
  end.

(** [.sort('created_at', -1)] *)
Definition sort_desc (l : list Post) : list Post := foldr insert_desc [] l.

(** [find()] or [find({username: u})], sorted by [created_at] descending. *)
Definition find_sorted (user : option str) : M (list Post) := λ w,
  let found := match user with
               | None => posts w
               | Some u => List.filter (λ p, bool_decide (post_username p = u)) (posts w)
               end in
  (Ok (sort_desc found), record_call (posts_find user) w).

(** *** The blob store (GridFS) *)

Definition gridfs_put (oid : ObjectId) (data : bytes) (name mime : str) (date : Z)
  : M ObjectId := λ w,
  let w1 := record_call (fs_put data name mime) w in
  if bool_decide (oid ∈ map file__id (fs w)) then (Raise FileExists, w1)
  else (Ok oid,
        {| posts := posts w1;
           fs := fs w1 ++ [{| file__id := oid; file_data := data;
                              file_filename := name; file_content_type := mime;
                              file_upload_date := date |}];
           calls := calls w1 |}).

(** [delete(file_id)]: removes the file with that [_id], if there is one. *)
Definition gridfs_delete (id : option ObjectId) : M unit := λ w,
  (Ok tt,
   {| posts := posts w;
      fs := List.filter (λ f, negb (bool_decide (Some (file__id f) = id))) (fs w);
      calls := calls w ++ [fs_delete id] |}).

(** ** Responses *)

(** One entry of the list that [get_posts] returns. *)
Record PostView := {
  view__id : str;
  view_username : str;
  view_content : str;
  view_attachment : option str;
  view_attachment_id : str;
  view_created_at : str;
  view_first_name : str;
  view_last_name : str;
  view_profile_picture : str;
  view_likes : list str;
  view_comments : list str
}.

#[global] Instance PostView_eq_dec : EqDecision PostView.
Proof. solve_decision. Defined.

Inductive response :=
| jsonify_error (error : str) (status : N)     (* jsonify({'error': e}), status *)
| jsonify_posts (ps : list PostView)           (* jsonify({'posts': ps}) *)
| redirect (location : str).

#[global] Instance response_eq_dec : EqDecision response.
Proof. solve_decision. Defined.

(** The status the client sees: Flask answers a [BadRequestKeyError] with
    400 and any other uncaught exception with 500. *)
Definition http_status (r : result response) : N :=
  match r with
  | Ok (jsonify_error _ s) => s
  | Ok (jsonify_posts _) => 200
  | Ok (redirect _) => 302
  | Raise (BadRequestKeyError _) => 400
  | Raise _ => 500
  end.

Definition exn_str (e : exn) : str :=
  match e with
  | BadRequestKeyError _ => py "400 Bad Request"
  | InvalidId _ => py "not a valid ObjectId"
  | DuplicateKeyError => py "duplicate key error"
  | FileExists => py "file already exists"
  | UnicodeEncodeError => py "codec can't encode"
  | UnicodeDecodeError => py "codec can't decode"
  end.

(** ** Libraries and collaborators outside [src/] *)

Record Profile := { first_name : str; last_name : str; profile_picture : str }.

(** [bleach.clean], [magic.from_buffer(_, mime=True)] and werkzeug's
    [secure_filename] are third-party code; [get_profile] (module
    [accounts]) is the profile provider of the spec's section 6, a total
    lookup; [isoformat] prints a UTC timestamp. The handlers are stated
    for any such functions. *)
Record Libs := {
  bleach_clean : str → str;
  magic_from_buffer : bytes → str;
  secure_filename : str → str;
  get_profile : str → Profile;
  isoformat : Z → str
}.

(** [s.lower()], on the ASCII letters (the extensions of the allow-set are
    ASCII, and no other code point lowers to an ASCII letter of theirs). *)
Definition lower (s : str) : str :=
  map (λ c, if (65 <=? c) && (c <=? 90) then c + 32 else c) s.

(** [s.rsplit('.', 1)[1]] when ['.' in s]: what follows the last dot. *)
Fixpoint after_last_dot (s : str) : option str :=
  match s with
  | [] => None
  | c :: t => match after_last_dot t with
              | Some r => Some r
              | None => if c =? 46 then Some t else None
              end
  end.

(** [str(v)] of a stored attachment value; a pair comes back from the
    store as a two-element list. *)
Definition value_str (v : value) : str :=
  match v with
  | VNone => py "None"
  | VObjectId o => ObjectId_str o
  | VStr s => s
  | VPair s n => py "['" ++ s ++ py "', " ++ py (pretty n) ++ py "]"
  end.

(** [ObjectId(x)] where [x] is [None] (a fresh identifier is generated)
    or a [str] (parsed, or [InvalidId]). *)
Definition ObjectId_ (fresh : ObjectId) (x : option str) : M ObjectId :=
  match x with
  | None => mret fresh
  | Some s => match ObjectId_parse s with
              | Some o => mret o
              | None => raise (InvalidId s)
              end
  end.

(** [m[key]] on a werkzeug [MultiDict]. *)
Definition getitem {V} (m : gmap string V) (key : string) : M V :=
  match m !! key with
  | Some v => mret v
  | None => raise (BadRequestKeyError key)
  end.

(** [regenerate_session(context)] (module [security_config]): it renews
    the session and touches neither store. *)
Definition regenerate_session : M unit := mret tt.

Section Handlers.

Context (lib : Libs).

(** *** [src/app_tasks.py] *)

Definition allowed_file (filename : str) : bool :=
  bool_decide (46 ∈ filename)
  && match after_last_dot filename with
     | Some ext => bool_decide (lower ext ∈ ALLOWED_FILE_EXTENSIONS)
     | None => false
     end.

Definition validate_file_type (file_data : bytes) : bool * str :=
  let mime := magic_from_buffer lib file_data in
  (bool_decide (mime ∈ ALLOWED_MIME_TYPES), mime).

Definition upload_file (env : Env) (file : FileStorage) : M value :=
  (* file.seek(0, os.SEEK_END); file.tell() *)
  if MAX_FILE_SIZE_BYTES <? N.of_nat (length (stream file)) then
    mret (VPair ERROR_FILE_TOO_LARGE HTTP_PAYLOAD_TOO_LARGE)
  else
    let file_data := stream file in
    if (N.of_nat (length file_data) =? 0) then mret (VStr ERROR_EMPTY_FILE)
    else
      let filename := secure_filename lib (filename file) in
      if negb (allowed_file filename) then mret (VStr ERROR_FILE_TYPE_NOT_ALLOWED)
      else
        let unique_filename := uuid4 env ++ py "_" ++ filename in
        let '(file_validated, detected_mime) := validate_file_type file_data in
        if negb file_validated then
          mret (VPair ERROR_INVALID_FILE_TYPE HTTP_BAD_REQUEST)
        else
          oid ← gridfs_put (new_file_id env) file_data filename
                           detected_mime (utcnow env);
          mret (VObjectId oid).

Definition validate_sanitize (value : str) (pattern : regex) : bool :=
  if re_fullmatch pattern value && bool_decide (bleach_clean lib value = value)
  then true else false.

Definition is_direct_call (request : Request) : bool :=
  if bool_decide (headers request !! "Referer"%string = None) then true else false.

(** *** [src/posts.py] *)

Definition direct_call_denied : response :=
  jsonify_error (py "Direct calls are not allowed. Access denied!") 400.

Definition create_post (request : Request) (env : Env) : M response :=
  if is_direct_call request then mret direct_call_denied
  else
    let data := form request in
    let token := data !! "csrf_token"%string in
    let profile_picture := strip (default [] (data !! "profile_picture"%string)) in
    let content := strip (default [] (data !! "content"%string)) in
    a ← getitem (files request) "attachment";
    let attachment := if FileStorage_bool a then Some a else None in
    if negb (str_bool content) then
      mret (jsonify_error (py "Post content is required") 400)
    else if negb (validate_sanitize content POST_REGEX) then
      mret (jsonify_error (py "Invalid data") 400)
    else
      match utf8_encode content with
      | None => raise UnicodeEncodeError
      | Some encoded =>
          let content := b64encode encoded in
          failed ← try_except
            (attachment_id ←
               match attachment with
               | Some file =>
                   if str_bool (filename file) then upload_file env file
                   else mret VNone
               | None => mret VNone
               end;
             inserted_post ← insert_one (new_post_id env) (λ oid,
               {| post__id := oid;
                  post_username := current_user_id request;
                  post_content := content;
                  post_attachment := attachment_id;
                  post_created_at := utcnow env;
                  post_likes := [];
                  post_comments := [] |});
             mret None)
            (λ e, mret (Some (jsonify_error (py "Failed to create post") 500)));
          match failed with
          | Some r => mret r
          | None => _ ← regenerate_session; mret (redirect (py "/"))
          end
      end.

Definition update_post (request : Request) (env : Env) : M response :=
  if is_direct_call request then mret direct_call_denied
  else
    let data := form request in
    let token := data !! "csrf_token"%string in
    post_id ← ObjectId_ (new_post_id env) (data !! "id"%string);
    let content := strip (default [] (data !! "content"%string)) in
    if negb (ObjectId_bool post_id) then
      mret (jsonify_error (py "Post ID is required") 400)
    else
      update_fields ←
        (if str_bool content && validate_sanitize content POST_REGEX then
           match utf8_encode content with
           | None => raise UnicodeEncodeError
           | Some encoded => mret (<["content"%string := b64encode encoded]> ∅)
           end
         else mret (∅ : gmap string bytes));
      if bool_decide (update_fields = ∅) then
        mret (jsonify_error (py "No update fields provided") 400)
      else
        matched_count ← update_one post_id (current_user_id request) update_fields;
        if (matched_count =? 0)%nat then
          mret (jsonify_error (py "Post not found or forbidden") 403)
        else _ ← regenerate_session; mret (redirect (py "/")).

Definition delete_post (request : Request) (env : Env) : M response :=
  if is_direct_call request then mret direct_call_denied
  else
    let data := form request in
    post_id ← ObjectId_ (new_post_id env) (data !! "id"%string);
    attachment_id ←
      (if negb (bool_decide (data !! "attachment_id"%string = Some (py "None")))
       then oid ← ObjectId_ (new_file_id env) (data !! "attachment_id"%string);
            mret (Some oid)
       else mret None);
    let token := data !! "csrf_token"%string in
    if negb (ObjectId_bool post_id) then
      mret (jsonify_error (py "Post ID is required") 400)
    else
      returned ← try_except
        (post ← find_one post_id (current_user_id request);
         match post with
         | None => mret (Some (jsonify_error (py "Post not found or forbidden") 403))
         | Some _ =>
             _ ← gridfs_delete attachment_id;
             deleted_count ← delete_one post_id (current_user_id request);
             if (deleted_count =? 0)%nat then
               mret (Some (jsonify_error (py "Post not found or forbidden") 403))
             else mret None
         end)
        (λ e, mret (Some (jsonify_error
                            (py "Error while deleting post: " ++ exn_str e) 500)));
      match returned with
      | Some r => mret r
      | None => _ ← regenerate_session; mret (redirect (py "/"))
      end.

(** The body of the [for post in posts] loop of [get_posts]. *)
Definition enrich (post : Post) : option PostView :=
  content ← utf8_decode (post_content post);
  let profile := get_profile lib (post_username post) in
  Some {| view__id := ObjectId_str (post__id post);
          view_username := post_username post;
          view_content := content;
          view_attachment :=
            match post_attachment post with
            | VNone => None
            | v => Some (py "/api/files/" ++ value_str v)
            end;
          view_attachment_id := value_str (post_attachment post);
          view_created_at := isoformat lib (post_created_at post);
          view_first_name := first_name profile;
          view_last_name := last_name profile;
          view_profile_picture := profile_picture profile;
          view_likes := post_likes post;
          view_comments := post_comments post |}.

Definition get_posts (username : option str) (request : Request) : M response :=
  if is_direct_call request then mret direct_call_denied
  else
    let filter := match username with
                  | Some u => if str_bool u then Some u else None
                  | None => None
                  end in
    found ← find_sorted filter;
    match mapM enrich found with
    | Some views => mret (jsonify_posts views)
    | None => raise UnicodeDecodeError
    end.

End Handlers.

(** *** [validate_sanitize_bulk] of [src/app_tasks.py]

    One dictionary of [data_list]: its ['pattern'] entry, if it has one,
    and its other entries, each a [str] or [None]. *)
Record BulkItem := {
  item_pattern : option regex;
  item_fields : gmap string (option str)
}.

(** The function returns a [bool] or raises [KeyError]. *)
Inductive bulk_result :=
| BulkReturn (b : bool)
| BulkKeyError (key : string).

Fixpoint validate_sanitize_bulk (lib : Libs) (data_list : list BulkItem)
    (index : string) : bulk_result :=
  match data_list with
  | [] => BulkReturn true
  | data :: rest =>
      match item_fields data !! index with
      | None => BulkKeyError index
      | Some None => validate_sanitize_bulk lib rest index
      | Some (Some value) =>
          match item_pattern data with
          | None => BulkKeyError "pattern"
          | Some pattern =>
              if negb (validate_sanitize lib value pattern) then BulkReturn false
              else validate_sanitize_bulk lib rest index
          end
      end
  end.

(** ** Notions the theorems are stated with *)

(** What it means for [r] to match the subject from one position to
    another, stated without a matcher. *)
Inductive matches : regex → pos → pos → Prop :=
| m_eps p : matches REps p p
| m_bol s : matches RBol (O, s) (O, s)
| m_eol_end i : matches REol (i, []) (i, [])
| m_eol_newline i : matches REol (i, [10]) (i, [10])
| m_set items i c t :
    in_class items c = true → matches (RSet items) (i, c :: t) (S i, t)
| m_cat r1 r2 p q u : matches r1 p q → matches r2 q u → matches (RCat r1 r2) p u
| m_alt_l r1 r2 p q : matches r1 p q → matches (RAlt r1 r2) p q
| m_alt_r r1 r2 p q : matches r2 p q → matches (RAlt r1 r2) p q
| m_star_nil r p : matches (RStar r) p p
| m_star_cons r p q u :
    matches r p q → matches (RStar r) q u → matches (RStar r) p u
| m_plus r p q u : matches r p q → matches (RStar r) q u → matches (RPlus r) p u.

(** The whole of [s] matches [r], from its start to its end. *)
Definition matches_whole (r : regex) (s : str) : Prop := ∃ n, matches r (O, s) (n, []).

(** What a reader of the store runs to get the plain text of a post back. *)
Definition decode_content (b : bytes) : option str := b64decode b ≫= utf8_decode.

(** [b] is what [create_post] and [update_post] store for the text [c]. *)
Definition encodes (c : str) (b : bytes) : Prop :=
  ∃ enc, utf8_encode c = Some enc ∧ b = b64encode enc.

(** A stored payload: the encoding of a text that matches POST_REGEX. *)
Definition stored_ok (b : bytes) : Prop :=
  ∃ c, encodes c b ∧ re_fullmatch POST_REGEX c = true.

(** A store call writes only such payloads. *)
Definition call_ok (c : call) : Prop :=
  match c with
  | posts_insert_one d => stored_ok (post_content d)
  | posts_update_one _ _ fields =>
      ∀ b, fields !! "content"%string = Some b → stored_ok b
  | _ => True
  end.

(** The invariant of the stores and of the call log. *)
Definition world_ok (w : World) : Prop :=
  Forall (λ p, stored_ok (post_content p)) (posts w) ∧ Forall call_ok (calls w).

(** The content that [create_post] and [update_post] read from the form. *)
Definition form_content (req : Request) : str :=
  strip (default [] (form req !! "content"%string)).

(** The document that [create_post] inserts. *)
Definition new_post (req : Request) (env : Env) (content : bytes) (att : value) : Post :=
  {| post__id := new_post_id env;
     post_username := current_user_id req;
     post_content := content;
     post_attachment := att;
     post_created_at := utcnow env;
     post_likes := [];
     post_comments := [] |}.

(** What [ObjectId(form.get(key))] evaluates to, when it does not raise. *)
Definition resolves (fresh : ObjectId) (x : option str) (o : ObjectId) : Prop :=
  match x with
  | None => o = fresh
  | Some s => ObjectId_parse s = Some o
  end.

(** The [update_fields] that [update_post] stages. *)
Definition content_fields (enc : bytes) : gmap string bytes :=
  <["content"%string := b64encode enc]> ∅.

(** The PostNotFoundOrForbidden answer. *)
Definition not_found : response :=
  jsonify_error (py "Post not found or forbidden") 403.

(** The [attachment_id] that [delete_post] reads from the form. *)
Definition resolves_attachment (fresh : ObjectId) (x : option str)
    (a : option ObjectId) : Prop :=
  if decide (x = Some (py "None")) then a = None
  else ∃ o, a = Some o ∧ resolves fresh x o.

(** An [insert_one] call that [create_post] issues for sanitized content. *)
Definition insert_call_ok (lib : Libs) (req : Request) (env : Env) (c : call) : Prop :=
  ∃ enc att, c = posts_insert_one (new_post req env (b64encode enc) att)
    ∧ validate_sanitize lib (form_content req) POST_REGEX = true
    ∧ utf8_encode (form_content req) = Some enc.

(** One handler run, on any request and any draw from the environment. *)
Inductive step (lib : Libs) (w : World) : World → Prop :=
| step_create req env : step lib w (create_post lib req env w).2
| step_update req env : step lib w (update_post lib req env w).2
| step_delete req env : step lib w (delete_post req env w).2
| step_list username req : step lib w (get_posts lib username req w).2.

(** The states the handlers can bring the empty stores to. *)
Inductive reachable (lib : Libs) : World → Prop :=
| reachable_empty : reachable lib empty_world
| reachable_step w w' : reachable lib w → step lib w w' → reachable lib w'.

(** The attachment a stored post links to, if any. *)
Definition attachment_ref (p : Post) : option ObjectId :=
  match post_attachment p with
  | VObjectId a => Some a
  | _ => None
  end.


(** One of the four validation steps of [upload_file] refuses the file. *)
Definition upload_invalid (lib : Libs) (f : FileStorage) : bool :=
  (MAX_FILE_SIZE_BYTES <? N.of_nat (length (stream f)))
  || (N.of_nat (length (stream f)) =? 0)
  || negb (allowed_file (secure_filename lib (filename f)))
  || negb (validate_file_type lib (stream f)).1.

(** The values [upload_file] returns for a refused file. *)
Definition upload_rejected (v : value) : Prop :=
  v = VPair ERROR_FILE_TOO_LARGE HTTP_PAYLOAD_TOO_LARGE
  ∨ v = VStr ERROR_EMPTY_FILE
  ∨ v = VStr ERROR_FILE_TYPE_NOT_ALLOWED
  ∨ v = VPair ERROR_INVALID_FILE_TYPE HTTP_BAD_REQUEST.

Definition id_required : response := jsonify_error (py "Post ID is required") 400.

(** Newest first. *)
Definition newer_first (p q : Post) : Prop := (post_created_at q ≤ post_created_at p)%Z.

(** The posts that [get_posts(username)] selects. *)
Definition selected (username : option str) (l : list Post) : list Post :=
  match username with
  | Some u => if str_bool u then List.filter (λ p, bool_decide (post_username p = u)) l
              else l
  | None => l
  end.

(** A post as the store holds it after a clean creation: a 12-byte [_id],
    and no attachment or a 12-byte attachment reference. *)
Definition well_linked (p : Post) : Prop :=
  length (binary (post__id p)) = 12%nat
  ∧ (post_attachment p = VNone
     ∨ ∃ a, post_attachment p = VObjectId a ∧ length (binary a) = 12%nat).


(** The blob that [upload_file] stores for an accepted file. *)
Definition stored_blob (lib : Libs) (env : Env) (f : FileStorage) : GridFile :=
  {| file__id := new_file_id env;
     file_data := stream f;
     file_filename := secure_filename lib (filename f);
     file_content_type := magic_from_buffer lib (stream f);
     file_upload_date := utcnow env |}.

(** What a dictionary of [data_list] contributes: nothing for a [None]
    input, the verdict of [validate_sanitize] otherwise. *)
Definition item_passes (lib : Libs) (index : string) (d : BulkItem) : Prop :=
  item_fields d !! index = Some None
  ∨ ∃ value pattern, item_fields d !! index = Some (Some value)
                     ∧ item_pattern d = Some pattern
                     ∧ validate_sanitize lib value pattern = true.

(** The post with its content replaced. *)
Definition with_content (p : Post) (c : bytes) : Post :=
  {| post__id := post__id p; post_username := post_username p;
     post_content := c; post_attachment := post_attachment p;
     post_created_at := post_created_at p; post_likes := post_likes p;
     post_comments := post_comments p |}.

(** ** Concrete requests and stores *)

(** Stand-ins for the third-party functions, to run the handlers on
    concrete requests: a cleaner that escapes the three markup characters,
    a sniffer that knows the PNG signature, file names taken as they are. *)
Definition escape_markup (s : str) : str :=
  s ≫= (λ c, if c =? 38 then py "&amp;"
             else if c =? 60 then py "&lt;"
             else if c =? 62 then py "&gt;" else [c]).

Definition sniff (data : bytes) : str :=
  match data with
  | x89 :: x50 :: x4e :: x47 :: _ => py "image/png"
  | _ => py "text/plain"
  end.

Definition example_lib : Libs :=
  {| bleach_clean := escape_markup;
     magic_from_buffer := sniff;
     secure_filename := λ s, s;
     get_profile := λ u, {| first_name := u; last_name := []; profile_picture := [] |};
     isoformat := λ t, py (pretty t) |}.

Definition oid (n : N) : ObjectId := {| binary := replicate 11 x00 ++ [byte_of_N n] |}.

Definition env_at (post file : N) (now : Z) : Env :=
  {| new_post_id := oid post; new_file_id := oid file; utcnow := now;
     uuid4 := py "0f8fad5b-d9cb-469f-a165-70867728950e" |}.

(** A form post that comes from a page of the site. *)
Definition request_of (user : string) (fields : list (string * str))
    (file : option FileStorage) : Request :=
  {| headers := {[ "Referer"%string := py "https://social.example/" ]};
     form := list_to_map fields;
     files := match file with
              | Some f => {[ "attachment"%string := f ]}
              | None => ∅
              end;
     current_user_id := py user |}.

Definition no_file : FileStorage := {| filename := []; stream := [] |}.
Definition png_file (name : string) : FileStorage :=
  {| filename := py name; stream := [x89; x50; x4e; x47; x0d; x0a; x1a; x0a] |}.
Definition text_file : FileStorage :=
  {| filename := py "a.txt"; stream := pyb "0123456789" |}.

Definition hello_request : Request :=
  request_of "alice" [("content"%string, py "Hello, world!")] (Some no_file).

Definition hello_world : World :=
  (create_post example_lib hello_request (env_at 1 2 100) empty_world).2.

(** Alice and Bob each post a picture. *)
Definition two_posts : World :=
  let w1 := (create_post example_lib
               (request_of "alice" [("content"%string, py "my cat")]
                  (Some (png_file "cat.png")))
               (env_at 1 2 100) empty_world).2 in
  (create_post example_lib
     (request_of "bob" [("content"%string, py "my dog")] (Some (png_file "dog.png")))
     (env_at 3 4 200) w1).2.

Definition alice_post : Post :=
  {| post__id := oid 1; post_username := py "alice";
     post_content := pyb "bXkgY2F0"; post_attachment := VObjectId (oid 2);
     post_created_at := 100; post_likes := []; post_comments := [] |}.

Definition bob_post : Post :=
  {| post__id := oid 3; post_username := py "bob";
     post_content := pyb "bXkgZG9n"; post_attachment := VObjectId (oid 4);
     post_created_at := 200; post_likes := []; post_comments := [] |}.


(** Alice deletes her post, naming an attachment. *)
Definition alice_delete (attachment : ObjectId) : Request :=
  request_of "alice" [("id"%string, ObjectId_str (oid 1));
                      ("attachment_id"%string, ObjectId_str attachment)] None.

Definition later : Env := env_at 9 10 300.

(** A request typed into the address bar: no Referer. *)
Definition direct_request : Request :=
  {| headers := ∅;
     form := list_to_map [("content"%string, py "Hello, world!")];
     files := {[ "attachment"%string := no_file ]};
     current_user_id := py "alice" |}.

Definition no_part_request : Request :=
  request_of "alice" [("content"%string, py "Hello, world!")] None.

Definition text_upload_request : Request :=
  request_of "alice" [("content"%string, py "hi")] (Some text_file).

Definition update_without_id : Request :=
  request_of "alice" [("content"%string, py "hi")] None.


(** Carol posts with a text file: the upload is refused and the refusal
    message is stored as the post's attachment. *)
Definition carol_request : Request :=
  request_of "carol" [("content"%string, py "my notes")] (Some text_file).

Definition carol_post : Post :=
  {| post__id := oid 5; post_username := py "carol";
     post_content := pyb "bXkgbm90ZXM="; post_attachment := VStr ERROR_FILE_TYPE_NOT_ALLOWED;
     post_created_at := 250; post_likes := []; post_comments := [] |}.

(** The two picture posts and Carol's. *)
Definition three_posts : World :=
  (create_post example_lib carol_request (env_at 5 6 250) two_posts).2.


(** Two dictionaries as a registration form would pass them: a user name
    against [TEXT_REGEX] and an e-mail address left out. *)
Definition bulk_example : list BulkItem :=
  [{| item_pattern := Some TEXT_REGEX;
      item_fields := {[ "input"%string := Some (py "alice1") ]} |};
   {| item_pattern := Some EMAIL_REGEX;
      item_fields := {[ "input"%string := None ]} |}].

(** A dictionary whose input has markup in it. *)
Definition bulk_markup : list BulkItem :=
  [{| item_pattern := Some TEXT_REGEX;
      item_fields := {[ "input"%string := Some (py "<b>") ]} |}].

(** The stores after the listing of [three_posts], and Alice's entry in
    it. *)
Definition three_posts_listed : World :=
  (get_posts example_lib None hello_request three_posts).2.

Definition alice_view : PostView :=
  {| view__id := ObjectId_str (oid 1);
     view_username := py "alice";
     view_content := py "bXkgY2F0";
     view_attachment := Some (py "/api/files/" ++ ObjectId_str (oid 2));
     view_attachment_id := ObjectId_str (oid 2);
     view_created_at := py (pretty 100%Z);
     view_first_name := py "alice";
     view_last_name := [];
     view_profile_picture := [];
     view_likes := [];
     view_comments := [] |}.

(** Requests with an identifier that is no ObjectId, with blank content,
    with markup, with a picture, and Alice's edit of her post. *)
Definition malformed_id_request : Request :=
  request_of "alice" [("id"%string, py "xyz"); ("content"%string, py "hi")] None.
Definition malformed_attachment_request : Request :=
  request_of "alice" [("id"%string, ObjectId_str (oid 1));
                      ("attachment_id"%string, py "xyz")] None.
Definition blank_request : Request :=
  request_of "alice" [("content"%string, py "   ")] (Some no_file).
Definition markup_request : Request :=
  request_of "alice" [("content"%string, py "<b>hi</b>")] (Some no_file).
Definition bird_request : Request :=
  request_of "carol" [("content"%string, py "my bird")] (Some (png_file "bird.png")).
Definition alice_update : Request :=
  request_of "alice" [("id"%string, ObjectId_str (oid 1));
                      ("content"%string, py "my old cat")] None.

(** An environment whose next post identifier is already taken. *)
Definition clashing : Env := env_at 1 10 300.

(** * Proofs *)

(** ** Bytes, base64 and UTF-8 *)

Ltac nlia := zify; Z.to_euclidean_division_equations; lia.

Lemma to_N_byte_of_N n : n < 256 → Byte.to_N (byte_of_N n) = n.
Proof.
  intros Hn. unfold byte_of_N.
  destruct (Byte.of_N n) as [b|] eqn:E.
  - by apply Byte.to_of_N.
  - apply Byte.of_N_None_iff in E. lia.
Qed.

Lemma byte_of_N_to_N b : byte_of_N (Byte.to_N b) = b.
Proof. unfold byte_of_N. by rewrite Byte.of_to_N. Qed.

Lemma byte_of_N_eq n b : n = Byte.to_N b → byte_of_N n = b.
Proof. intros ->. apply byte_of_N_to_N. Qed.

Lemma to_N_lt b : Byte.to_N b < 256.
Proof. pose proof (Byte.to_N_bounded b). lia. Qed.

Ltac ncases :=
  repeat match goal with
  | |- context [?a <? ?b] => destruct (N.ltb_spec a b)
  | |- context [?a <=? ?b] => destruct (N.leb_spec a b)
  | |- context [?a =? ?b] => destruct (N.eqb_spec a b)
  | |- context [andb true _] => rewrite andb_true_l
  | |- context [andb false _] => rewrite andb_false_l
  | |- context [andb _ false] => rewrite andb_false_r
  | |- context [andb _ true] => rewrite andb_true_r
  end.

Lemma b64_index_char n : n < 64 → b64_index (b64_char n) = Some n.
Proof.
  intros Hn. unfold b64_index, b64_char.
  destruct (N.ltb_spec n 26); [|destruct (N.ltb_spec n 52); [|destruct (N.ltb_spec n 62); [|destruct (N.eqb_spec n 62)]]];
  rewrite to_N_byte_of_N by lia; ncases; simpl; try (f_equal; lia); try lia.
Qed.

Lemma b64_char_not_pad n : n < 64 → b64_char n ≠ b64_pad.
Proof.
  intros Hn E. apply (f_equal Byte.to_N) in E. revert E.
  unfold b64_char, b64_pad. 
  destruct (N.ltb_spec n 26); [|destruct (N.ltb_spec n 52); [|destruct (N.ltb_spec n 62); [|destruct (N.eqb_spec n 62)]]];
  rewrite !to_N_byte_of_N by lia; lia.
Qed.

Lemma b64_char_ascii n : Byte.to_N (b64_char n) < 128.
Proof.
  unfold b64_char.
  destruct (N.ltb_spec n 26); [|destruct (N.ltb_spec n 52); [|destruct (N.ltb_spec n 62); [|destruct (N.eqb_spec n 62)]]];
  rewrite !to_N_byte_of_N by lia; lia.
Qed.

Lemma b64decode_encode bs : b64decode (b64encode bs) = Some bs.
Proof.
  remember (length bs) as k eqn:Hk. revert bs Hk.
  induction k as [k IH] using lt_wf_ind. intros bs Hk.
  destruct bs as [|a [|b [|c rest]]]; [done|..].
  - pose proof (to_N_lt a). cbn [b64encode b64decode].
    set (n := Byte.to_N a * 65536).
    rewrite !b64_index_char by (subst n; nlia). cbn [mbind option_bind].
    rewrite decide_True by done.
    rewrite decide_True by (subst n; repeat split; nlia).
    do 2 f_equal. apply byte_of_N_eq. subst n. nlia.
  - pose proof (to_N_lt a). pose proof (to_N_lt b). cbn [b64encode b64decode].
    set (n := Byte.to_N a * 65536 + Byte.to_N b * 256).
    rewrite !b64_index_char by (subst n; nlia). cbn [mbind option_bind].
    rewrite decide_False by (apply b64_char_not_pad; subst n; nlia).
    rewrite ?b64_index_char by (subst n; nlia). cbn [mbind option_bind].
    rewrite decide_True by done.
    rewrite decide_True by (subst n; repeat split; nlia).
    repeat f_equal; apply byte_of_N_eq; subst n; nlia.
  - pose proof (to_N_lt a). pose proof (to_N_lt b). pose proof (to_N_lt c).
    cbn [b64encode b64decode].
    set (n := Byte.to_N a * 65536 + Byte.to_N b * 256 + Byte.to_N c).
    rewrite !b64_index_char by (subst n; nlia). cbn [mbind option_bind].
    rewrite decide_False by (apply b64_char_not_pad; subst n; nlia).
    rewrite ?b64_index_char by (subst n; nlia). cbn [mbind option_bind].
    rewrite decide_False by (apply b64_char_not_pad; subst n; nlia).
    rewrite ?b64_index_char by (subst n; nlia). cbn [mbind option_bind].
    rewrite (IH (length rest)) by (simpl in Hk; lia || done). cbn [mbind option_bind].
    repeat f_equal; apply byte_of_N_eq; subst n; nlia.
Qed.

Lemma b64encode_ascii bs : Forall (λ b, Byte.to_N b < 128) (b64encode bs).
Proof.
  remember (length bs) as k eqn:Hk. revert bs Hk.
  induction k as [k IH] using lt_wf_ind. intros bs Hk.
  assert (Byte.to_N b64_pad < 128) by (vm_compute; done).
  destruct bs as [|a [|b [|c rest]]]; cbn [b64encode];
    repeat (constructor; [by (apply b64_char_ascii || assumption)|]); try constructor.
  apply (IH (length rest)); [simpl in Hk; lia | done].
Qed.

Lemma utf8_decode_ascii bs :
  Forall (λ b, Byte.to_N b < 128) bs → utf8_decode bs = Some (map Byte.to_N bs).
Proof.
  induction 1 as [|b bs Hb _ IH]; [done|].
  cbn [utf8_decode map]. apply N.ltb_lt in Hb. rewrite Hb, IH. done.
Qed.

Lemma utf8_encode_ascii s :
  Forall (λ c, c < 128) s → utf8_encode s = Some (map byte_of_N s).
Proof.
  induction 1 as [|c s Hc _ IH]; [done|].
  cbn [utf8_encode map]. unfold utf8_encode_cp. apply N.ltb_lt in Hc.
  rewrite Hc, IH. done.
Qed.

Lemma split64 c :
  ∃ q r, c = 64 * q + r ∧ r < 64 ∧ c / 64 = q ∧ c mod 64 = r.
Proof. exists (c / 64), (c mod 64). repeat split; nlia. Qed.

Lemma split4096 c :
  ∃ q r1 r0, c = 4096 * q + 64 * r1 + r0 ∧ r1 < 64 ∧ r0 < 64
    ∧ c / 4096 = q ∧ (c / 64) mod 64 = r1 ∧ c mod 64 = r0.
Proof. exists (c / 4096), ((c / 64) mod 64), (c mod 64). repeat split; nlia. Qed.

Lemma split262144 c :
  ∃ q r2 r1 r0, c = 262144 * q + 4096 * r2 + 64 * r1 + r0
    ∧ r2 < 64 ∧ r1 < 64 ∧ r0 < 64
    ∧ c / 262144 = q ∧ (c / 4096) mod 64 = r2 ∧ (c / 64) mod 64 = r1
    ∧ c mod 64 = r0.
Proof.
  exists (c / 262144), ((c / 4096) mod 64), ((c / 64) mod 64), (c mod 64).
  repeat split; nlia.
Qed.

Lemma utf8_decode_cp c e rest :
  utf8_encode_cp c = Some e →
  utf8_decode (e ++ rest) = (r ← utf8_decode rest; Some (c :: r)).
Proof.
  unfold utf8_encode_cp.
  destruct (N.ltb_spec c 128).
  { intros [= <-]. cbn [app utf8_decode]. rewrite to_N_byte_of_N by lia.
    apply N.ltb_lt in H. by rewrite H. }
  destruct (N.ltb_spec c 2048).
  { destruct (split64 c) as (q & r0 & Hc & ? & -> & ->).
    intros [= <-]. cbn [app utf8_decode]. unfold is_cont, cont.
    rewrite !to_N_byte_of_N by lia.
    replace ((192 + q - 192) * 64 + (128 + r0 - 128)) with c by lia.
    ncases; try lia. cbn [andb]. by destruct (utf8_decode rest). }
  destruct (N.ltb_spec c 65536).
  { destruct (split4096 c) as (q & r1 & r0 & Hc & ? & ? & -> & -> & ->).
    destruct (N.leb_spec 55296 c); [destruct (N.leb_spec c 57343)|]; cbn [andb];
      try discriminate; intros [= <-]; cbn [app utf8_decode]; unfold is_cont, cont;
      rewrite !to_N_byte_of_N by lia.
    all: replace ((224 + q - 224) * 4096 + (128 + r1 - 128) * 64
             + (128 + r0 - 128)) with c by lia.
    all: ncases; try lia; cbn [andb negb]; destruct (utf8_decode rest); done. }
  destruct (N.ltb_spec c 1114112); [|discriminate].
  destruct (split262144 c) as (q & r2 & r1 & r0 & Hc & ? & ? & ? & -> & -> & -> & ->).
  intros [= <-]. cbn [app utf8_decode]. unfold is_cont, cont.
  rewrite !to_N_byte_of_N by lia.
  replace ((240 + q - 240) * 262144 + (128 + r2 - 128) * 4096
           + (128 + r1 - 128) * 64 + (128 + r0 - 128)) with c by lia.
  ncases; try lia; cbn [andb negb]; destruct (utf8_decode rest); done.
Qed.

Lemma utf8_decode_encode s bs : utf8_encode s = Some bs → utf8_decode bs = Some s.
Proof.
  revert bs. induction s as [|c s IH]; intros bs; cbn [utf8_encode].
  - by intros [= <-].
  - destruct (utf8_encode_cp c) as [e|] eqn:Ec; [|done].
    destruct (utf8_encode s) as [r|]; [|done]. cbn. intros [= <-].
    rewrite (utf8_decode_cp _ _ _ Ec), (IH r) by done. done.
Qed.

(** ** Class patterns and the text of an ObjectId *)

(** regex *)
Lemma existsb_bind_eol l : existsb at_end (l ≫= run REol) = existsb at_end l.
Proof.
  induction l as [|[i s] l IH]; [done|].
  cbn [mbind list_bind]. rewrite existsb_app, IH. cbn [existsb]. f_equal.
  destruct s as [|c [|d s]]; cbn; [done| |done].
  by destruct (c =? 10).
Qed.

Lemma star_set_at_end items fuel i s :
  (length s ≤ fuel)%nat →
  existsb at_end (star_from (run (RSet items)) fuel (i, s)) = forallb (in_class items) s.
Proof.
  revert fuel i. induction s as [|c t IH]; intros fuel i Hf.
  - by destruct fuel.
  - destruct fuel as [|n]; [simpl in Hf; lia|].
    cbn [star_from run existsb forallb fst snd at_end orb].
    destruct (in_class items c); cbn [List.filter andb]; [|done].
    unfold progress. cbn [snd length].
    rewrite (proj2 (Nat.ltb_lt _ _)) by lia.
    cbn [mbind list_bind]. rewrite app_nil_r. apply IH. simpl in Hf. lia.
Qed.

Lemma fullmatch_class_plus items s :
  re_fullmatch (RCat RBol (RCat (RPlus (RSet items)) REol)) s
  = str_bool s && forallb (in_class items) s.
Proof.
  unfold re_fullmatch. cbn [run fst mbind list_bind]. rewrite app_nil_r.
  rewrite existsb_bind_eol. destruct s as [|c t]; [done|].
  cbn [snd str_bool forallb andb]. destruct (in_class items c); [|done].
  cbn [mbind list_bind snd]. rewrite app_nil_r. by apply star_set_at_end.
Qed.

Lemma post_class_bound c : in_class post_class c = true → c ≤ 12288.
Proof.
  unfold in_class, post_class, existsb, in_item, is_space.
  rewrite !orb_true_iff, !andb_true_iff, !N.leb_le, !N.eqb_eq. lia.
Qed.

Lemma utf8_encode_total s :
  Forall (λ c, c ≤ 12288) s → is_Some (utf8_encode s).
Proof.
  induction 1 as [|c s Hc _ [r IH]]; [by eexists|].
  cbn [utf8_encode]. rewrite IH.
  assert (is_Some (utf8_encode_cp c)) as [e ->]; [|by eexists].
  unfold utf8_encode_cp. ncases; (by eexists) || lia.
Qed.

Lemma post_regex_encodable s :
  re_fullmatch POST_REGEX s = true → is_Some (utf8_encode s).
Proof.
  unfold POST_REGEX. rewrite fullmatch_class_plus. intros [_ H]%andb_true_iff.
  apply utf8_encode_total. rewrite forallb_forall in H.
  apply Forall_forall. intros c Hc. apply post_class_bound, H. by apply list_elem_of_In.
Qed.

(** hex *)
Lemma hex_digit_val n : n < 16 → hex_val (hex_digit n) = Some n ∧ is_ascii_space (hex_digit n) = false.
Proof.
  intros Hn. unfold hex_val, hex_digit, is_ascii_space.
  destruct (N.ltb_spec n 10); ncases; cbn; try lia; split; try done; f_equal; lia.
Qed.

Lemma fromhex_hexlify bs : fromhex (hexlify bs) = Some bs.
Proof.
  induction bs as [|b bs IH]; [done|].
  unfold hexlify in *. cbn [mbind list_bind app].
  pose proof (to_N_lt b).
  destruct (hex_digit_val (Byte.to_N b / 16)) as [E1 E2]; [nlia|].
  destruct (hex_digit_val (Byte.to_N b mod 16)) as [E3 _]; [nlia|].
  cbn [fromhex]. rewrite E2, E1, E3, IH. cbn. do 2 f_equal.
  apply byte_of_N_eq. nlia.
Qed.

Lemma length_hexlify bs : length (hexlify bs) = (2 * length bs)%nat.
Proof. induction bs as [|b bs IH]; [done|]. unfold hexlify in *. cbn. rewrite IH. lia. Qed.

Lemma ObjectId_parse_str o :
  length (binary o) = 12%nat → ObjectId_parse (ObjectId_str o) = Some o.
Proof.
  intros H. unfold ObjectId_parse, ObjectId_str. rewrite length_hexlify, H.
  cbn. rewrite fromhex_hexlify. by destruct o.
Qed.

(** ** The matcher against the relational reading *)

Ltac plia := unfold pos, str in *; lia.

Lemma matches_suffix r p q :
  matches r p q → ∃ pre, p.2 = pre ++ q.2 ∧ q.1 = (p.1 + length pre)%nat.
Proof.
  induction 1 as [p|s|i|i|items i c t _|r1 r2 p q u _ [a [Ha1 Ha2]] _ [b [Hb1 Hb2]]
                 |r1 r2 p q _ IH|r1 r2 p q _ IH|r p
                 |r p q u _ [a [Ha1 Ha2]] _ [b [Hb1 Hb2]]
                 |r p q u _ [a [Ha1 Ha2]] _ [b [Hb1 Hb2]]];
    try (exists []; cbn; split; [done|lia]); try done.
  - exists [c]. cbn. split; [done|lia].
  - exists (a ++ b). rewrite Ha1, Hb1, Hb2, Ha2, length_app, <- app_assoc. split; [done|lia].
  - exists (a ++ b). rewrite Ha1, Hb1, Hb2, Ha2, length_app, <- app_assoc. split; [done|lia].
  - exists (a ++ b). rewrite Ha1, Hb1, Hb2, Ha2, length_app, <- app_assoc. split; [done|lia].
Qed.

Lemma matches_no_progress r p q :
  matches r p q → progress p q = false → q = p.
Proof.
  intros (pre & H1 & H2)%matches_suffix Hp. unfold progress in Hp.
  apply Nat.ltb_ge in Hp. rewrite H1, length_app in Hp.
  destruct pre; [|cbn in Hp; plia]. destruct p, q; cbn in *. subst. f_equal. plia.
Qed.

Lemma bind_ext_in {A B} (f g : A → list B) l :
  (∀ x, x ∈ l → f x = g x) → l ≫= f = l ≫= g.
Proof.
  induction l as [|x l IH]; intros H; [done|]. cbn.
  rewrite (H x) by left. rewrite IH; [done|]. intros y Hy. apply H. by right.
Qed.

Lemma star_from_fuel step n m p :
  (length p.2 ≤ n)%nat → (length p.2 ≤ m)%nat → star_from step n p = star_from step m p.
Proof.
  revert m p. induction n as [|n IH]; intros m p Hn Hm.
  - destruct m as [|m]; [done|]. cbn [star_from]. f_equal.
    replace (List.filter (progress p) (step p)) with (@nil pos); [done|].
    symmetry. induction (step p) as [|q l IHl]; [done|]. cbn [List.filter].
    unfold progress at 1. rewrite (proj2 (Nat.ltb_ge _ _)) by plia. done.
  - destruct m as [|m].
    + cbn [star_from]. f_equal.
      replace (List.filter (progress p) (step p)) with (@nil pos); [done|].
      symmetry. induction (step p) as [|q l IHl]; [done|]. cbn [List.filter].
      unfold progress at 1. rewrite (proj2 (Nat.ltb_ge _ _)) by plia. done.
    + cbn [star_from]. f_equal. apply bind_ext_in.
      intros q Hq. apply list_elem_of_In, filter_In in Hq as [_ Hq].
      unfold progress in Hq. apply Nat.ltb_lt in Hq. apply IH; plia.
Qed.

Lemma star_from_sound (step : pos → list pos) r :
  (∀ p q, q ∈ step p → matches r p q) →
  ∀ n p q, q ∈ star_from step n p → matches (RStar r) p q.
Proof.
  intros Hstep n. induction n as [|n IH]; intros p q; cbn [star_from].
  - intros ->%list_elem_of_singleton. constructor.
  - intros [->|Hq]%elem_of_cons; [constructor|].
    apply list_elem_of_bind in Hq as (q' & Hq & Hq').
    apply list_elem_of_In, filter_In in Hq' as [Hq' _]. apply list_elem_of_In in Hq'.
    eapply m_star_cons; eauto.
Qed.

Lemma run_sound r : ∀ p q, q ∈ run r p → matches r p q.
Proof.
  induction r as [| | |items|r1 IH1 r2 IH2|r1 IH1 r2 IH2|r1 IH1|r1 IH1];
    intros [i s] q; cbn [run fst snd].
  - intros ->%list_elem_of_singleton. constructor.
  - destruct i; [|by intros ?%elem_of_nil]. intros ->%list_elem_of_singleton. constructor.
  - destruct s as [|c [|d s]]; [| |by intros ?%elem_of_nil].
    + intros ->%list_elem_of_singleton. constructor.
    + destruct (N.eqb_spec c 10) as [->|]; [|by intros ?%elem_of_nil].
      intros ->%list_elem_of_singleton. constructor.
  - destruct s as [|c t]; [by intros ?%elem_of_nil|].
    destruct (in_class items c) eqn:Hc; [|by intros ?%elem_of_nil].
    intros ->%list_elem_of_singleton. by constructor.
  - intros (q' & Hq & Hq')%list_elem_of_bind. eapply m_cat; eauto.
  - intros [H|H]%elem_of_app; [apply m_alt_l|apply m_alt_r]; auto.
  - apply star_from_sound. done.
  - intros (q' & Hq & Hq')%list_elem_of_bind. eapply m_plus; [eauto|].
    eapply star_from_sound; eauto.
Qed.

Lemma run_complete r p q : matches r p q → q ∈ run r p.
Proof.
  induction 1 as [p|s|i|i|items i c t Hc|r1 r2 p q u _ IH1 _ IH2
                 |r1 r2 p q _ IH|r1 r2 p q _ IH|r p
                 |r p q u H1 IH1 H2 IH2
                 |r p q u _ IH1 _ IH2]; cbn [run fst snd].
  - by left.
  - by left.
  - by left.
  - by left.
  - rewrite Hc. by left.
  - apply list_elem_of_bind. eauto.
  - apply elem_of_app. by left.
  - apply elem_of_app. by right.
  - destruct (length p.2); left.
  - cbn [run] in IH2. destruct (progress p q) eqn:Hp.
    + unfold progress in Hp. pose proof Hp as Hlt. apply Nat.ltb_lt in Hlt.
      destruct (length p.2) as [|n] eqn:Hn; [plia|].
      cbn [star_from]. right. apply list_elem_of_bind. exists q. split.
      * rewrite (star_from_fuel _ n (length q.2)) by plia. done.
      * apply list_elem_of_In, filter_In. split; [by apply list_elem_of_In|].
        unfold progress. by rewrite Hn.
    + apply matches_no_progress in H1; [|done]. by subst.
  - apply list_elem_of_bind. exists q. split; [|done]. exact IH2.
Qed.

Lemma re_fullmatch_matches_whole r s : re_fullmatch r s = true ↔ matches_whole r s.
Proof.
  unfold re_fullmatch, matches_whole. rewrite existsb_exists. split.
  - intros ([n t] & Hin & He). apply list_elem_of_In, run_sound in Hin.
    destruct t; [|done]. by exists n.
  - intros (n & H). exists (n, []). split; [|done].
    by apply list_elem_of_In, run_complete.
Qed.

(** ** Every way a handler can end *)

Lemma encodes_decode c b : encodes c b → decode_content b = Some c.
Proof.
  intros (enc & He & ->). unfold decode_content. rewrite b64decode_encode.
  cbn. by apply utf8_decode_encode.
Qed.

Lemma encodes_text c b : encodes c b → utf8_decode b = Some (map Byte.to_N b).
Proof. intros (enc & He & ->). apply utf8_decode_ascii, b64encode_ascii. Qed.

Section HandlerCases.
Context (lib : Libs).

Lemma is_direct_call_true req :
  headers req !! "Referer"%string = None → is_direct_call req = true.
Proof. intros H. unfold is_direct_call. by rewrite bool_decide_eq_true_2. Qed.

Lemma is_direct_call_false req :
  headers req !! "Referer"%string ≠ None → is_direct_call req = false.
Proof. intros H. unfold is_direct_call. by rewrite bool_decide_eq_false_2. Qed.

(** C8: a request without a Referer gets the direct-call answer from each
    of the four handlers, and the stores and the log of store calls are
    left exactly as they were. *)
Theorem direct_call_rejected_before_store req env username w :
  headers req !! "Referer"%string = None →
  create_post lib req env w = (Ok direct_call_denied, w)
  ∧ update_post lib req env w = (Ok direct_call_denied, w)
  ∧ delete_post req env w = (Ok direct_call_denied, w)
  ∧ get_posts lib username req w = (Ok direct_call_denied, w).
Proof.
  intros H%is_direct_call_true.
  unfold create_post, update_post, delete_post, get_posts. by rewrite H.
Qed.

(** C10: with no [attachment] part in the request, [create_post] is over
    before it looks at the content or at a store: the answer is a 400 (the
    direct-call answer or, past that gate, the lookup's
    [BadRequestKeyError]) and the stores are untouched. *)
Theorem create_post_without_attachment_part req env w :
  files req !! "attachment"%string = None →
  ∃ r, create_post lib req env w = (r, w)
       ∧ http_status r = 400
       ∧ (headers req !! "Referer"%string ≠ None →
          r = Raise (BadRequestKeyError "attachment")).
Proof.
  intros H. unfold create_post, is_direct_call.
  case_bool_decide as Hr.
  - eexists; split; [done|]. split; [done|]. intros; done.
  - unfold getitem. rewrite H. eexists; split; [done|]. done.
Qed.

Lemma upload_file_world env f w :
  ∃ v w', upload_file lib env f w = (v, w') ∧ posts w' = posts w
    ∧ (w' = w ∨ ∃ d n m, calls w' = calls w ++ [fs_put d n m]).
Proof.
  unfold upload_file.
  repeat case_match; try (do 2 eexists; split; [done|]; split; [done|]; by left).
  unfold mbind, M_bind, gridfs_put, mret, M_ret.
  case_bool_decide; do 2 eexists; (split; [done|]); (split; [done|]); right; cbn; eauto.
Qed.

Lemma validated_stored_ok c enc :
  validate_sanitize lib c POST_REGEX = true → utf8_encode c = Some enc →
  stored_ok (b64encode enc).
Proof.
  unfold validate_sanitize. intros Hv He. exists c. split.
  - by exists enc.
  - destruct (re_fullmatch POST_REGEX c); done.
Qed.

Lemma insert_one_eq oid doc w :
  insert_one oid doc w =
  if bool_decide (oid ∈ map post__id (posts w))
  then (Raise DuplicateKeyError, record_call (posts_insert_one (doc oid)) w)
  else (Ok oid, {| posts := posts w ++ [doc oid]; fs := fs w;
                   calls := calls w ++ [posts_insert_one (doc oid)] |}).
Proof. reflexivity. Qed.

(** The attachment step of [create_post]. *)
Lemma attachment_step env (a : FileStorage) w :
  ∃ v w',
    (match (if FileStorage_bool a then Some a else None) with
     | Some file => if str_bool (filename file) then upload_file lib env file
                    else mret VNone
     | None => mret VNone
     end) w = (v, w')
    ∧ posts w' = posts w
    ∧ (w' = w ∨ ∃ d n m, calls w' = calls w ++ [fs_put d n m]).
Proof.
  destruct (FileStorage_bool a); [destruct (str_bool (filename a))|];
    (apply upload_file_world || (do 2 eexists; split; [done|]; split; [done|]; by left)).
Qed.

(** Every way [create_post] can end. *)
Lemma create_post_cases req env w :
  ∃ r w', create_post lib req env w = (r, w') ∧
    ((r ≠ Ok (redirect (py "/")) ∧ posts w' = posts w
      ∧ (∀ c, c ∈ calls w' →
           c ∈ calls w ∨ (∃ d n m, c = fs_put d n m) ∨ insert_call_ok lib req env c))
     ∨ (r = Ok (redirect (py "/")) ∧ headers req !! "Referer"%string ≠ None ∧
        ∃ enc att w1,
          validate_sanitize lib (form_content req) POST_REGEX = true
          ∧ utf8_encode (form_content req) = Some enc
          ∧ (new_post_id env ∉ map post__id (posts w))
          ∧ posts w1 = posts w
          ∧ (w1 = w ∨ ∃ d n m, calls w1 = calls w ++ [fs_put d n m])
          ∧ posts w' = posts w ++ [new_post req env (b64encode enc) att]
          ∧ fs w' = fs w1
          ∧ calls w' = calls w1
                       ++ [posts_insert_one (new_post req env (b64encode enc) att)])).
Proof.
  unfold create_post, is_direct_call. fold (form_content req).
  case_bool_decide as Hr.
  { do 2 eexists; split; [done|]. left. split; [done|]. split; [done|]. auto. }
  unfold getitem. destruct (files req !! "attachment"%string) as [a|].
  2:{ do 2 eexists; split; [done|]. left. split; [done|]. split; [done|]. auto. }
  unfold mbind at 1, M_bind at 1, mret at 1, M_ret at 1.
  destruct (str_bool (form_content req)); cbn [negb].
  2:{ do 2 eexists; split; [done|]. left. split; [done|]. split; [done|]. auto. }
  destruct (validate_sanitize lib (form_content req) POST_REGEX) eqn:Hv; cbn [negb].
  2:{ do 2 eexists; split; [done|]. left. split; [done|]. split; [done|]. auto. }
  destruct (utf8_encode (form_content req)) as [enc|] eqn:He.
  2:{ do 2 eexists; split; [done|]. left. split; [done|]. split; [done|]. auto. }
  destruct (attachment_step env a w) as (v & w1 & Hu & Hp & Hc).
  unfold mbind, M_bind, try_except. rewrite Hu.
  destruct v as [att|e].
  2:{ do 2 eexists; split; [done|]. left. split; [done|]. split; [done|].
      intros c Hcin. destruct Hc as [->|(d & n & m & Hc)]; [by left|].
      rewrite Hc in Hcin. apply elem_of_app in Hcin as [?|Hx%list_elem_of_singleton]; subst; [by left|right; left; eauto]. }
  rewrite insert_one_eq. rewrite Hp. case_bool_decide as Hd.
  - do 2 eexists; split; [done|]. left. split; [done|]. split; [done|].
    intros c Hcin. cbn [record_call calls] in Hcin.
    apply elem_of_app in Hcin as [Hcin|Hx%list_elem_of_singleton]; subst.
    + destruct Hc as [->|(d & n & m & Hc)]; [by left|].
      rewrite Hc in Hcin. apply elem_of_app in Hcin as [?|Hx%list_elem_of_singleton]; subst; [by left|right; left; eauto].
    + right; right. by exists enc, att.
  - do 2 eexists; split; [done|]. right. split; [done|]. split; [done|].
    exists enc, att, w1. cbn [posts fs calls]. by rewrite Hp.
Qed.

Lemma ObjectId_cases fresh x w :
  (∃ o, ObjectId_ fresh x w = (Ok o, w) ∧ resolves fresh x o)
  ∨ (∃ e, ObjectId_ fresh x w = (Raise e, w)).
Proof.
  unfold ObjectId_, resolves. destruct x as [s|]; [|left; by eexists].
  destruct (ObjectId_parse s); [left|right]; by eexists.
Qed.

(** Every way [update_post] can end. *)
Lemma update_post_cases req env w :
  ∃ r w', update_post lib req env w = (r, w') ∧
    ((w' = w ∧ r ≠ Ok (redirect (py "/")) ∧ r ≠ Ok not_found)
     ∨ ∃ pid enc,
         headers req !! "Referer"%string ≠ None
         ∧ resolves (new_post_id env) (form req !! "id"%string) pid
         ∧ validate_sanitize lib (form_content req) POST_REGEX = true
         ∧ utf8_encode (form_content req) = Some enc
         ∧ w' = {| posts := (update_first (id_owner pid (current_user_id req))
                               (apply_set (content_fields enc)) (posts w)).2;
                   fs := fs w;
                   calls := calls w ++ [posts_update_one pid (current_user_id req)
                                          (content_fields enc)] |}
         ∧ r = if ((update_first (id_owner pid (current_user_id req))
                      (apply_set (content_fields enc)) (posts w)).1 =? 0)%nat
               then Ok not_found else Ok (redirect (py "/"))).
Proof.
  unfold update_post, is_direct_call. fold (form_content req).
  case_bool_decide as Hr.
  { do 2 eexists; split; [done|]. by left. }
  unfold mbind at 1, M_bind at 1.
  destruct (ObjectId_cases (new_post_id env) (form req !! "id"%string) w)
    as [(pid & -> & Hpid)|(e & ->)].
  2:{ do 2 eexists; split; [done|]. by left. }
  cbn [ObjectId_bool negb].
  destruct (str_bool (form_content req)); cbn [andb].
  2:{ unfold mbind, M_bind, mret, M_ret. rewrite bool_decide_eq_true_2 by done.
      do 2 eexists; split; [done|]. by left. }
  destruct (validate_sanitize lib (form_content req) POST_REGEX) eqn:Hv.
  2:{ unfold mbind, M_bind, mret, M_ret. rewrite bool_decide_eq_true_2 by done.
      do 2 eexists; split; [done|]. by left. }
  destruct (utf8_encode (form_content req)) as [enc|] eqn:He.
  2:{ do 2 eexists; split; [done|]. by left. }
  unfold mbind, M_bind, mret, M_ret. fold (content_fields enc).
  rewrite bool_decide_eq_false_2 by apply insert_non_empty.
  unfold update_one, regenerate_session, mret, M_ret.
  cbn [fst snd].
  destruct (_ =? _)%nat eqn:Hm; do 2 eexists; (split; [done|]); right;
    exists pid, enc; rewrite Hm; done.
Qed.

(** Every way [delete_post] can end. *)
Lemma delete_post_cases req env w :
  ∃ r w', delete_post req env w = (r, w') ∧
    ((w' = w ∧ r ≠ Ok (redirect (py "/")) ∧ r ≠ Ok not_found)
     ∨ ∃ pid aid,
         headers req !! "Referer"%string ≠ None
         ∧ resolves (new_post_id env) (form req !! "id"%string) pid
         ∧ resolves_attachment (new_file_id env)
             (form req !! "attachment_id"%string) aid
         ∧ ((List.find (id_owner pid (current_user_id req)) (posts w) = None
             ∧ w' = record_call (posts_find_one pid (current_user_id req)) w
             ∧ r = Ok not_found)
            ∨ (is_Some (List.find (id_owner pid (current_user_id req)) (posts w))
               ∧ w' = {| posts := (delete_first (id_owner pid (current_user_id req))
                                     (posts w)).2;
                         fs := List.filter
                                 (λ f, negb (bool_decide (Some (file__id f) = aid)))
                                 (fs w);
                         calls := calls w
                           ++ [posts_find_one pid (current_user_id req)]
                           ++ [fs_delete aid]
                           ++ [posts_delete_one pid (current_user_id req)] |}
               ∧ r = if ((delete_first (id_owner pid (current_user_id req))
                            (posts w)).1 =? 0)%nat
                     then Ok not_found else Ok (redirect (py "/"))))).
Proof.
  unfold delete_post, is_direct_call.
  case_bool_decide as Hr.
  { do 2 eexists; split; [done|]. by left. }
  unfold mbind at 1, M_bind at 1.
  destruct (ObjectId_cases (new_post_id env) (form req !! "id"%string) w)
    as [(pid & -> & Hpid)|(e & ->)].
  2:{ do 2 eexists; split; [done|]. by left. }
  unfold mbind at 1, M_bind at 1.
  assert (∃ ra, (if negb (bool_decide (form req !! "attachment_id"%string = Some (py "None")))
       then oid ← ObjectId_ (new_file_id env) (form req !! "attachment_id"%string);
            mret (Some oid)
       else mret None) w = (ra, w)
     ∧ ∀ aid, ra = Ok aid → resolves_attachment (new_file_id env)
                               (form req !! "attachment_id"%string) aid)
    as (ra & -> & Ha).
  { unfold resolves_attachment. case_bool_decide as Hn; cbn [negb].
    - eexists; split; [done|]. intros aid [= <-]. by rewrite decide_True.
    - unfold mbind, M_bind.
      destruct (ObjectId_cases (new_file_id env) (form req !! "attachment_id"%string) w)
        as [(o & -> & Ho)|(e & ->)]; eexists; (split; [done|]); intros aid [= <-].
      rewrite decide_False by done. eauto. }
  destruct ra as [aid|e].
  2:{ do 2 eexists; split; [done|]. by left. }
  specialize (Ha aid eq_refl). cbn [ObjectId_bool negb].
  unfold mbind, M_bind, try_except, find_one, gridfs_delete, delete_one, mret, M_ret,
    regenerate_session.
  destruct (List.find _ (posts w)) as [p|] eqn:Hf.
  2:{ do 2 eexists; split; [done|]. right. exists pid, aid. repeat (split; [done|]).
      left. done. }
  cbn [record_call posts fs calls fst snd].
  destruct (_ =? _)%nat eqn:Hm; do 2 eexists; (split; [done|]); right;
    exists pid, aid; (repeat (split; [done|])); right; rewrite Hm, <- !app_assoc; done.
Qed.

Lemma get_posts_world username req w :
  ∃ r w', get_posts lib username req w = (r, w') ∧ posts w' = posts w ∧ fs w' = fs w
    ∧ (w' = w ∨ ∃ u, calls w' = calls w ++ [posts_find u]).
Proof.
  unfold get_posts. destruct (is_direct_call req).
  { do 2 eexists; split; [done|]. repeat split; auto. }
  unfold mbind, M_bind, find_sorted, mret, M_ret, raise.
  destruct (mapM _ _); do 2 eexists; (split; [done|]); repeat split; right; by eexists.
Qed.

End HandlerCases.

(** ** Filtered store operations *)


Lemma update_first_Forall (P : Post → Prop) f g l :
  Forall P l → (∀ p, P p → P (g p)) → Forall P (update_first f g l).2.
Proof.
  intros Hl Hg. induction Hl as [|p l Hp Hl IH]; [constructor|].
  cbn [update_first]. destruct (f p); cbn [snd]; constructor; auto.
Qed.

Lemma delete_first_none f (l : list Post) :
  (∀ p, p ∈ l → f p = false) → delete_first f l = (O, l).
Proof.
  induction l as [|p l IH]; intros H; [done|].
  cbn [delete_first]. rewrite (H p) by left.
  rewrite IH; [done|]. intros q Hq. apply H. by right.
Qed.

Lemma delete_first_Forall (P : Post → Prop) f l :
  Forall P l → Forall P (delete_first f l).2.
Proof.
  induction 1 as [|p l Hp Hl IH]; [constructor|].
  cbn [delete_first]. destruct (f p); cbn [snd]; [done|]. by constructor.
Qed.

Lemma delete_first_found f (l : list Post) p :
  List.find f l = Some p →
  ∃ l1 l2, l = l1 ++ p :: l2 ∧ delete_first f l = (1%nat, l1 ++ l2)
           ∧ ∀ q, q ∈ l1 → f q = false.
Proof.
  induction l as [|q l IH]; [done|]. cbn [List.find delete_first].
  destruct (f q) eqn:Hq.
  - intros [= ->]. exists [], l. split; [done|]. split; [done|]. by intros ? ?%elem_of_nil.
  - intros (l1 & l2 & -> & Hd & Hl1)%IH. exists (q :: l1), l2.
    rewrite Hd. split; [done|]. split; [done|].
    intros x [->|Hx]%elem_of_cons; auto.
Qed.

Lemma find_none_iff (f : Post → bool) l :
  List.find f l = None ↔ ∀ p, p ∈ l → f p = false.
Proof.
  split.
  - intros H p Hp. apply (find_none f l H). by apply list_elem_of_In.
  - intros H. destruct (List.find f l) as [p|] eqn:Hf; [|done].
    apply find_some in Hf as [Hin Hp]. apply list_elem_of_In in Hin.
    rewrite (H p Hin) in Hp. done.
Qed.

Lemma find_unique (f : Post → bool) l p :
  p ∈ l → f p = true → (∀ q, q ∈ l → f q = true → q = p) → List.find f l = Some p.
Proof.
  intros Hin Hp Hu. destruct (List.find f l) as [q|] eqn:Hf.
  - apply find_some in Hf as [Hq1 Hq2]. f_equal. apply Hu; [|done].
    by apply list_elem_of_In.
  - rewrite find_none_iff in Hf. rewrite (Hf p Hin) in Hp. done.
Qed.

(** With unique identifiers, a post is the only one with its [_id]. *)
Lemma unique_id (l : list Post) p q :
  NoDup (map post__id l) → p ∈ l → q ∈ l → post__id p = post__id q → p = q.
Proof.
  induction l as [|x l IH]; intros Hnd Hp Hq Heq; [by apply elem_of_nil in Hp|].
  cbn [map] in Hnd. apply NoDup_cons in Hnd as [Hx Hnd].
  apply elem_of_cons in Hp as [->|Hp]; apply elem_of_cons in Hq as [->|Hq]; auto.
  - exfalso. apply Hx. rewrite Heq. apply list_elem_of_fmap. eauto.
  - exfalso. apply Hx. rewrite <- Heq. apply list_elem_of_fmap. eauto.
Qed.

Lemma id_owner_true id user p :
  id_owner id user p = true ↔ post__id p = id ∧ post_username p = user.
Proof.
  unfold id_owner. rewrite andb_true_iff, !bool_decide_eq_true. done.
Qed.


(** ** Invariants of the reachable stores *)

Section Invariants.
Context (lib : Libs).

Lemma apply_set_content_ok enc p :
  stored_ok (b64encode enc) → stored_ok (post_content p) →
  stored_ok (post_content (apply_set (content_fields enc) p)).
Proof.
  intros H _. unfold apply_set, content_fields. by rewrite lookup_insert_eq.
Qed.

Lemma apply_set_id fields p : post__id (apply_set fields p) = post__id p.
Proof. unfold apply_set. by destruct (fields !! _). Qed.

Lemma apply_set_username fields p : post_username (apply_set fields p) = post_username p.
Proof. unfold apply_set. by destruct (fields !! _). Qed.

Lemma update_first_ids f fields l :
  map post__id (update_first f (apply_set fields) l).2 = map post__id l.
Proof.
  induction l as [|p l IH]; [done|]. cbn [update_first].
  destruct (f p); cbn [snd map]; [by rewrite apply_set_id|by rewrite IH].
Qed.

Lemma delete_first_sublist f (l : list Post) : sublist (delete_first f l).2 l.
Proof.
  induction l as [|p l IH]; [done|]. cbn [delete_first].
  destruct (f p); cbn [snd]; [by apply sublist_cons|by apply sublist_skip].
Qed.

Lemma step_world_ok w w' : world_ok w → step lib w w' → world_ok w'.
Proof.
  intros [Hp Hc] Hs. destruct Hs as [req env|req env|req env|username req].
  - destruct (create_post_cases lib req env w) as (r & w' & -> & H). cbn [snd].
    unfold world_ok.
    destruct H as [(_ & Hposts & Hcalls)|(_ & _ & enc & att & w1 & Hv & He & _ & Hp1 & Hc1 & -> & _ & ->)].
    + split; [by rewrite Hposts|]. apply Forall_forall. intros c [Hin|[(d & n & m & ->)|Hi]]%Hcalls.
      * by apply (proj1 (Forall_forall _ _) Hc).
      * done.
      * destruct Hi as (enc & att & -> & Hv & He). by apply (validated_stored_ok lib (form_content req) enc).
    + pose proof (validated_stored_ok lib _ _ Hv He) as Hok. split.
      * apply Forall_app. split; [done|]. by constructor.
      * apply Forall_app. split; [|by constructor].
        destruct Hc1 as [->|(d & n & m & ->)]; [done|].
        apply Forall_app. split; [done|]. by constructor.
  - destruct (update_post_cases lib req env w) as (r & w' & -> & H). cbn [snd].
    destruct H as [(-> & _)|(pid & enc & _ & _ & Hv & He & -> & _)]; [done|].
    pose proof (validated_stored_ok lib _ _ Hv He) as Hok. split; cbn [posts calls].
    + apply update_first_Forall; [done|]. intros p. by apply apply_set_content_ok.
    + apply Forall_app. split; [done|]. constructor; [|done].
      intros b. unfold content_fields. rewrite lookup_insert_eq. by intros [= <-].
  - destruct (delete_post_cases req env w) as (r & w' & -> & H). cbn [snd].
    destruct H as [(-> & _)|(pid & aid & _ & _ & _ & [(_ & -> & _)|(_ & -> & _)])]; [done|..].
    + split; cbn [record_call posts calls]; [done|].
      apply Forall_app. split; [done|]. by constructor.
    + split; cbn [posts calls]; [by apply delete_first_Forall|].
      apply Forall_app. split; [done|]. by repeat constructor.
  - destruct (get_posts_world lib username req w) as (r & w' & -> & Hposts & _ & Hcalls).
    cbn [snd]. unfold world_ok. split; [by rewrite Hposts|].
    destruct Hcalls as [->|(u & ->)]; [done|].
    apply Forall_app. split; [done|]. by constructor.
Qed.

Lemma reachable_world_ok w : reachable lib w → world_ok w.
Proof.
  induction 1 as [|w w' _ IH Hs]; [by split; constructor|]. by apply (step_world_ok w).
Qed.

Lemma step_unique_ids w w' :
  NoDup (map post__id (posts w)) → step lib w w' → NoDup (map post__id (posts w')).
Proof.
  intros Hnd Hs. destruct Hs as [req env|req env|req env|username req].
  - destruct (create_post_cases lib req env w) as (r & w' & -> & H). cbn [snd].
    destruct H as [(_ & -> & _)|(_ & _ & enc & att & w1 & _ & _ & Hfresh & _ & _ & -> & _)]; [done|].
    rewrite map_app. apply NoDup_app. split; [done|]. split.
    + intros x Hx [->|[]%elem_of_nil]%elem_of_cons. done.
    + cbn. apply NoDup_singleton.
  - destruct (update_post_cases lib req env w) as (r & w' & -> & H). cbn [snd].
    destruct H as [(-> & _)|(pid & enc & _ & _ & _ & _ & -> & _)]; [done|].
    cbn [posts]. by rewrite update_first_ids.
  - destruct (delete_post_cases req env w) as (r & w' & -> & H). cbn [snd].
    destruct H as [(-> & _)|(pid & aid & _ & _ & _ & [(_ & -> & _)|(_ & -> & _)])];
      cbn [posts record_call]; [done|done|].
    apply (sublist_NoDup _ (map post__id (posts w))); [done|].
    apply (fmap_sublist post__id), delete_first_sublist.
  - destruct (get_posts_world lib username req w) as (r & w' & -> & Hp & _).
    cbn [snd]. by rewrite Hp.
Qed.

Lemma reachable_unique_ids w : reachable lib w → NoDup (map post__id (posts w)).
Proof.
  induction 1 as [|w w' _ IH Hs]; [constructor|]. by apply (step_unique_ids w).
Qed.

End Invariants.

(** ** Ownership *)

Section Ownership.
Context (lib : Libs).

Lemma ObjectId_resolves fresh x o w :
  resolves fresh x o → ObjectId_ fresh x w = (Ok o, w).
Proof.
  unfold resolves, ObjectId_. destruct x as [s|]; [by intros ->|by intros ->].
Qed.

Lemma validate_post_facts c :
  validate_sanitize lib c POST_REGEX = true →
  re_fullmatch POST_REGEX c = true ∧ bleach_clean lib c = c
  ∧ str_bool c = true ∧ is_Some (utf8_encode c).
Proof.
  unfold validate_sanitize.
  destruct (re_fullmatch POST_REGEX c) eqn:Hm; [|done].
  case_bool_decide as Hb; [|done]. intros _.
  split; [done|]. split; [done|]. split; [|by apply post_regex_encodable].
  unfold POST_REGEX in Hm. rewrite fullmatch_class_plus in Hm.
  by apply andb_true_iff in Hm as [? _].
Qed.

Lemma update_post_eval req env w pid enc :
  headers req !! "Referer"%string ≠ None →
  resolves (new_post_id env) (form req !! "id"%string) pid →
  validate_sanitize lib (form_content req) POST_REGEX = true →
  utf8_encode (form_content req) = Some enc →
  update_post lib req env w =
    let u := update_first (id_owner pid (current_user_id req))
               (apply_set (content_fields enc)) (posts w) in
    (if (u.1 =? 0)%nat then Ok not_found else Ok (redirect (py "/")),
     {| posts := u.2; fs := fs w;
        calls := calls w ++ [posts_update_one pid (current_user_id req)
                               (content_fields enc)] |}).
Proof.
  intros Hr Hpid Hv He. unfold update_post. fold (form_content req).
  rewrite is_direct_call_false by done.
  unfold mbind at 1, M_bind at 1. rewrite (ObjectId_resolves _ _ pid) by done.
  cbn [ObjectId_bool negb]. destruct (validate_post_facts _ Hv) as (_ & _ & -> & _).
  rewrite Hv, He. cbn [andb]. unfold mbind, M_bind, mret, M_ret.
  fold (content_fields enc).
  rewrite bool_decide_eq_false_2 by apply insert_non_empty.
  unfold update_one, regenerate_session, mret, M_ret. cbn [fst snd].
  by destruct (_ =? _)%nat.
Qed.

Lemma delete_post_eval req env w pid aid :
  headers req !! "Referer"%string ≠ None →
  resolves (new_post_id env) (form req !! "id"%string) pid →
  resolves_attachment (new_file_id env) (form req !! "attachment_id"%string) aid →
  delete_post req env w =
    match List.find (id_owner pid (current_user_id req)) (posts w) with
    | None => (Ok not_found, record_call (posts_find_one pid (current_user_id req)) w)
    | Some _ =>
        let d := delete_first (id_owner pid (current_user_id req)) (posts w) in
        (if (d.1 =? 0)%nat then Ok not_found else Ok (redirect (py "/")),
         {| posts := d.2;
            fs := List.filter (λ f, negb (bool_decide (Some (file__id f) = aid))) (fs w);
            calls := calls w ++ [posts_find_one pid (current_user_id req);
                                 fs_delete aid;
                                 posts_delete_one pid (current_user_id req)] |})
    end.
Proof.
  intros Hr Hpid Ha. unfold delete_post.
  rewrite is_direct_call_false by done.
  unfold mbind at 1, M_bind at 1. rewrite (ObjectId_resolves _ _ pid) by done.
  unfold mbind at 1, M_bind at 1.
  assert ((if negb (bool_decide (form req !! "attachment_id"%string = Some (py "None")))
       then oid ← ObjectId_ (new_file_id env) (form req !! "attachment_id"%string);
            mret (Some oid)
       else mret None) w = (Ok aid, w)) as ->.
  { unfold resolves_attachment in Ha. case_bool_decide as Hn; cbn [negb].
    - rewrite decide_True in Ha by done. by subst.
    - rewrite decide_False in Ha by done. destruct Ha as (o & -> & Ho).
      unfold mbind, M_bind. by rewrite (ObjectId_resolves _ _ o). }
  cbn [ObjectId_bool negb].
  unfold mbind, M_bind, try_except, find_one, gridfs_delete, delete_one, mret, M_ret,
    regenerate_session.
  destruct (List.find _ (posts w)) as [p|]; [|done].
  cbn [record_call posts fs calls fst snd]. rewrite <- !app_assoc.
  by destruct (_ =? _)%nat.
Qed.





End Ownership.

(** ** Listing *)

Lemma insert_desc_elem p q l : q ∈ insert_desc p l ↔ q = p ∨ q ∈ l.
Proof.
  induction l as [|x l IH]; cbn [insert_desc].
  - rewrite list_elem_of_singleton, elem_of_nil. tauto.
  - destruct (_ <? _)%Z; rewrite !elem_of_cons; [tauto|]. rewrite IH. tauto.
Qed.

Lemma sort_desc_elem q l : q ∈ sort_desc l ↔ q ∈ l.
Proof.
  unfold sort_desc. induction l as [|x l IH]; cbn [foldr]; [done|].
  rewrite insert_desc_elem, elem_of_cons, IH. done.
Qed.

Lemma map_byte_of_N_to_N (b : bytes) : map byte_of_N (map Byte.to_N b) = b.
Proof. induction b as [|x b IH]; [done|]. cbn. by rewrite byte_of_N_to_N, IH. Qed.

(** Reading a returned content field back: its ASCII bytes, base64-decoded,
    then UTF-8-decoded. *)
Lemma stored_text_decodes c b :
  encodes c b → utf8_encode (map Byte.to_N b) ≫= decode_content = Some c.
Proof.
  intros H. pose proof H as (enc & He & ->).
  rewrite utf8_encode_ascii.
  - rewrite map_byte_of_N_to_N. cbn. by apply encodes_decode.
  - apply Forall_fmap. apply (Forall_impl _ _ _ (b64encode_ascii enc)). done.
Qed.

Section Listing.
Context (lib : Libs).

Lemma enrich_stored p c :
  encodes c (post_content p) →
  ∃ v, enrich lib p = Some v
       ∧ view__id v = ObjectId_str (post__id p)
       ∧ view_username v = post_username p
       ∧ view_content v = map Byte.to_N (post_content p).
Proof.
  intros H. unfold enrich. rewrite (encodes_text _ _ H). cbn. by eexists.
Qed.

Lemma get_posts_eval username req w :
  headers req !! "Referer"%string ≠ None →
  Forall (λ p, stored_ok (post_content p)) (posts w) →
  ∃ views found,
    get_posts lib username req w
    = (Ok (jsonify_posts views),
       record_call (posts_find (match username with
                                | Some u => if str_bool u then Some u else None
                                | None => None
                                end)) w)
    ∧ mapM (enrich lib) (sort_desc found) = Some views
    ∧ found = match username with
              | Some u => if str_bool u
                          then List.filter (λ p, bool_decide (post_username p = u)) (posts w)
                          else posts w
              | None => posts w
              end.
Proof.
  intros Hr Hok. unfold get_posts. rewrite is_direct_call_false by done.
  unfold mbind, M_bind, find_sorted.
  set (flt := match username with Some u => if str_bool u then Some u else None | None => None end).
  set (found := match flt with None => posts w | Some u => _ end).
  assert (Forall (λ p, stored_ok (post_content p)) found) as Hf.
  { subst found. destruct flt; [|done]. apply Forall_forall. intros p Hp.
    apply list_elem_of_In, filter_In in Hp as [Hp _].
    apply (proj1 (Forall_forall _ _) Hok). by apply list_elem_of_In. }
  assert (is_Some (mapM (enrich lib) (sort_desc found))) as [views Hv].
  { apply mapM_is_Some. apply Forall_forall. intros p Hp. apply (proj1 (sort_desc_elem p found)) in Hp.
    destruct (proj1 (Forall_forall _ _) Hf p Hp) as (c & Hc & _).
    destruct (enrich_stored p c Hc) as (v & Hv & _). unfold compose. by rewrite Hv. }
  rewrite Hv. exists views, found. split; [done|]. split; [done|].
  subst found flt. destruct username as [u|]; [|done]. by destruct (str_bool u).
Qed.

(** C5: in every state reachable through the handlers, each stored post's
    content decodes (base64, then UTF-8) to a text that matches POST_REGEX;
    and whatever [create_post] inserted or [update_post] staged on the way
    did so too, having passed the sanitizer first. *)
Theorem stored_content_matches_post_pattern w :
  reachable lib w →
  Forall (λ p, ∃ c, decode_content (post_content p) = Some c
                    ∧ re_fullmatch POST_REGEX c = true) (posts w)
  ∧ Forall (λ k, match k with
                 | posts_insert_one d =>
                     ∃ c, decode_content (post_content d) = Some c
                          ∧ re_fullmatch POST_REGEX c = true
                 | posts_update_one _ _ fields =>
                     ∀ b, fields !! "content"%string = Some b →
                          ∃ c, decode_content b = Some c
                               ∧ re_fullmatch POST_REGEX c = true
                 | _ => True
                 end) (calls w).
Proof.
  intros [Hp Hc]%reachable_world_ok.
  assert (∀ b, stored_ok b → ∃ c, decode_content b = Some c
                                  ∧ re_fullmatch POST_REGEX c = true) as Hd.
  { intros b (c & He & Hm). exists c. split; [by apply encodes_decode|done]. }
  split.
  - apply (Forall_impl _ _ _ Hp). intros p. apply Hd.
  - apply (Forall_impl _ _ _ Hc). intros [| | | | | |]; cbn; auto.
Qed.

(** C1 (amended): after a successful [create_post], [get_posts] returns the
    new post with, as content, the base64 text of the accepted content
    (the stored bytes read as text); decoding that text gives the content
    back. *)
Theorem created_post_is_listed_in_base64 req env w w1 username req2 :
  reachable lib w →
  create_post lib req env w = (Ok (redirect (py "/")), w1) →
  headers req2 !! "Referer"%string ≠ None →
  username = None ∨ username = Some (current_user_id req) →
  ∃ enc views v,
    validate_sanitize lib (form_content req) POST_REGEX = true
    ∧ utf8_encode (form_content req) = Some enc
    ∧ (get_posts lib username req2 w1).1 = Ok (jsonify_posts views)
    ∧ v ∈ views
    ∧ view__id v = ObjectId_str (new_post_id env)
    ∧ view_username v = current_user_id req
    ∧ view_content v = map Byte.to_N (b64encode enc)
    ∧ utf8_encode (view_content v) ≫= decode_content = Some (form_content req).
Proof.
  intros Hreach Hcreate Hr2 Hu.
  assert (reachable lib w1) as Hreach1.
  { apply (reachable_step lib w); [done|].
    replace w1 with (create_post lib req env w).2 by (by rewrite Hcreate). constructor. }
  destruct (reachable_world_ok lib w1 Hreach1) as [Hok1 _].
  destruct (create_post_cases lib req env w) as (r & w' & E & H).
  rewrite Hcreate in E. injection E as <- <-.
  destruct H as [(Hne & _)|(_ & _ & enc & att & w0 & Hv & He & _ & _ & _ & Hposts & _)];
    [done|].
  set (np := new_post req env (b64encode enc) att) in *.
  assert (encodes (form_content req) (post_content np)) as Henc by (by exists enc).
  destruct (get_posts_eval username req2 w1 Hr2 Hok1) as (views & found & -> & Hm & Hfound).
  assert (np ∈ sort_desc found) as Hin.
  { apply sort_desc_elem. rewrite Hfound.
    assert (np ∈ posts w1) as Hnp by (rewrite Hposts; apply elem_of_app; right; by left).
    destruct Hu as [->| ->]; [done|]. destruct (str_bool _); [|done].
    apply list_elem_of_In, filter_In. split; [by apply list_elem_of_In|].
    by apply bool_decide_eq_true. }
  destruct (enrich_stored np _ Henc) as (v & Hev & Hid & Hun & Hco).
  apply mapM_Some in Hm.
  apply list_elem_of_lookup in Hin as [i Hi].
  destruct (Forall2_lookup_l _ _ _ _ _ Hm Hi) as (v' & Hv' & Hev').
  rewrite Hev in Hev'. injection Hev' as <-.
  exists enc, views, v. repeat (split; [done|]).
  split; [by apply list_elem_of_lookup_2 in Hv'|].
  repeat (split; [done|]).
  rewrite Hco. by apply stored_text_decodes.
Qed.

End Listing.

(** ** Validation *)

Section Validation.
Context (lib : Libs).

Lemma upload_file_invalid env f w :
  upload_invalid lib f = true →
  ∃ v, upload_file lib env f w = (Ok v, w) ∧ upload_rejected v.
Proof.
  unfold upload_invalid, upload_file, upload_rejected.
  destruct (_ <? _); [intros _; eexists; split; [done|]; auto|].
  destruct (_ =? _); [intros _; eexists; split; [done|]; auto|].
  destruct (allowed_file _); cbn [negb orb]; [|intros _; eexists; split; [done|]; auto].
  destruct (validate_file_type lib (stream f)) as [ok mime]. cbn [fst].
  destruct ok; [done|]. intros _. eexists; split; [done|]. auto 6.
Qed.

(** C2: what the code does where the spec asks for an abort. With content
    that passes the sanitizer and a file that [upload_file] refuses,
    [create_post] stores the refusal as the post's attachment, inserts the
    post and redirects as on success. *)
Theorem create_post_inserts_after_refused_upload req env w f :
  headers req !! "Referer"%string ≠ None →
  files req !! "attachment"%string = Some f →
  str_bool (filename f) = true →
  validate_sanitize lib (form_content req) POST_REGEX = true →
  new_post_id env ∉ map post__id (posts w) →
  upload_invalid lib f = true →
  ∃ enc v,
    utf8_encode (form_content req) = Some enc
    ∧ upload_rejected v
    ∧ create_post lib req env w =
        (Ok (redirect (py "/")),
         {| posts := posts w ++ [new_post req env (b64encode enc) v];
            fs := fs w;
            calls := calls w
                     ++ [posts_insert_one (new_post req env (b64encode enc) v)] |}).
Proof.
  intros Hr Hf Hn Hv Hfresh Hinv.
  destruct (validate_post_facts lib _ Hv) as (_ & _ & Hc & [enc He]).
  destruct (upload_file_invalid env f w Hinv) as (v & Hu & Hrej).
  exists enc, v. split; [done|]. split; [done|].
  unfold create_post. fold (form_content req).
  rewrite is_direct_call_false by done.
  unfold getitem. rewrite Hf.
  unfold mbind at 1, M_bind at 1, mret at 1, M_ret at 1.
  rewrite Hc, Hv, He. cbn [negb]. unfold FileStorage_bool. rewrite Hn. cbv beta iota. rewrite Hn.
  unfold mbind, M_bind, try_except. rewrite Hu, insert_one_eq.
  by rewrite bool_decide_eq_false_2.
Qed.

(** C6: [validate_sanitize] accepts exactly the strings that the pattern
    matches from start to end and that [bleach.clean] returns unchanged. *)
Theorem validate_sanitize_accepts_iff value pattern :
  (validate_sanitize lib value pattern = true
   ↔ matches_whole pattern value ∧ bleach_clean lib value = value)
  ∧ (validate_sanitize lib value pattern = true → bleach_clean lib value = value)
  ∧ (bleach_clean lib value ≠ value → validate_sanitize lib value pattern = false).
Proof.
  assert (validate_sanitize lib value pattern = true
          ↔ matches_whole pattern value ∧ bleach_clean lib value = value) as H.
  { rewrite <- re_fullmatch_matches_whole. unfold validate_sanitize.
    destruct (re_fullmatch pattern value); case_bool_decide; cbn; intuition congruence. }
  split; [done|]. split.
  - by intros [_ ?]%H.
  - intros Hne. apply not_true_is_false. by intros [_ ?]%H.
Qed.


(** C9: what the code does where the spec asks for "Post ID is required".
    [update_post] never gives that answer; without an [id] field it goes on
    with a freshly generated identifier, and once the content passes the
    sanitizer it queries the store with it. *)
Theorem update_post_never_requires_id req env w :
  ∃ r w',
    update_post lib req env w = (r, w')
    ∧ r ≠ Ok id_required
    ∧ (headers req !! "Referer"%string ≠ None →
       form req !! "id"%string = None →
       validate_sanitize lib (form_content req) POST_REGEX = true →
       ∃ fields,
         calls w' = calls w ++ [posts_update_one (new_post_id env)
                                  (current_user_id req) fields]).
Proof.
  destruct (update_post_cases lib req env w) as (r & w' & E & H).
  exists r, w'. split; [done|]. split.
  - destruct H as [(_ & _ & Hnf)|(pid & enc & _ & _ & _ & _ & _ & ->)].
    + unfold update_post, is_direct_call in E. fold (form_content req) in E.
      intros ->. revert E.
      case_bool_decide; [done|]. unfold mbind at 1, M_bind at 1.
      destruct (ObjectId_cases (new_post_id env) (form req !! "id"%string) w)
        as [(pid & -> & _)|(e & ->)]; [|done].
      cbn [ObjectId_bool negb]. unfold mbind, M_bind, mret, M_ret, raise.
      destruct (str_bool _ && _); [destruct (utf8_encode _)|];
        repeat case_bool_decide; try done;
        unfold update_one; cbn [fst snd]; by destruct (_ =? _)%nat.
    + by destruct (_ =? _)%nat.
  - intros Hr Hid Hv. destruct (validate_post_facts lib _ Hv) as (_ & _ & _ & [enc He]).
    rewrite (update_post_eval lib req env w (new_post_id env) enc) in E; try done.
    + injection E as _ <-. by eexists.
    + unfold resolves. by rewrite Hid.
Qed.

End Validation.

(** ** Runs on concrete requests *)

Lemma two_posts_reachable : reachable example_lib two_posts.
Proof.
  unfold two_posts. cbv zeta.
  eapply reachable_step; [|apply step_create].
  eapply reachable_step; [apply reachable_empty|apply step_create].
Qed.

Lemma two_posts_posts : posts two_posts = [alice_post; bob_post].
Proof. vm_compute. reflexivity. Qed.

(** C1, as stated, fails: the listed content is the base64 text. *)
Lemma listing_returns_base64_text :
  ∃ v, (get_posts example_lib None hello_request hello_world).1 = Ok (jsonify_posts [v])
       ∧ create_post example_lib hello_request (env_at 1 2 100) empty_world
         = (Ok (redirect (py "/")), hello_world)
       ∧ form_content hello_request = py "Hello, world!"
       ∧ validate_sanitize example_lib (py "Hello, world!") POST_REGEX = true
       ∧ view_content v = py "SGVsbG8sIHdvcmxkIQ=="
       ∧ view_content v ≠ py "Hello, world!".
Proof.
  eexists. split; [vm_compute; reflexivity|]. vm_compute. repeat split; done.
Qed.

Lemma created_post_is_listed_witness :
  reachable example_lib empty_world
  ∧ create_post example_lib hello_request (env_at 1 2 100) empty_world
    = (Ok (redirect (py "/")), hello_world)
  ∧ ∃ enc views v,
      validate_sanitize example_lib (form_content hello_request) POST_REGEX = true
      ∧ utf8_encode (form_content hello_request) = Some enc
      ∧ (get_posts example_lib None hello_request hello_world).1
        = Ok (jsonify_posts views)
      ∧ v ∈ views
      ∧ view__id v = ObjectId_str (new_post_id (env_at 1 2 100))
      ∧ view_username v = current_user_id hello_request
      ∧ view_content v = map Byte.to_N (b64encode enc)
      ∧ utf8_encode (view_content v) ≫= decode_content
        = Some (form_content hello_request).
Proof.
  split; [constructor|]. split; [vm_compute; reflexivity|].
  apply (created_post_is_listed_in_base64 example_lib hello_request (env_at 1 2 100)
           empty_world hello_world None hello_request).
  - constructor.
  - vm_compute. reflexivity.
  - vm_compute. discriminate.
  - by left.
Defined.


Lemma three_posts_reachable : reachable example_lib three_posts.
Proof. eapply reachable_step; [apply two_posts_reachable|apply step_create]. Qed.

Lemma three_posts_posts : posts three_posts = [alice_post; bob_post; carol_post].
Proof. vm_compute. reflexivity. Qed.




Lemma stored_content_matches_post_pattern_witness :
  reachable example_lib two_posts
  ∧ Forall (λ p, ∃ c, decode_content (post_content p) = Some c
                      ∧ re_fullmatch POST_REGEX c = true) (posts two_posts).
Proof.
  split; [apply two_posts_reachable|].
  apply (stored_content_matches_post_pattern example_lib two_posts two_posts_reachable).
Defined.

Lemma direct_call_rejected_witness :
  headers direct_request !! "Referer"%string = None
  ∧ create_post example_lib direct_request later two_posts
    = (Ok direct_call_denied, two_posts)
  ∧ update_post example_lib direct_request later two_posts
    = (Ok direct_call_denied, two_posts)
  ∧ delete_post direct_request later two_posts = (Ok direct_call_denied, two_posts)
  ∧ get_posts example_lib None direct_request two_posts
    = (Ok direct_call_denied, two_posts).
Proof.
  split; [reflexivity|].
  apply (direct_call_rejected_before_store example_lib direct_request later None two_posts).
  reflexivity.
Defined.

Lemma create_post_without_attachment_part_witness :
  files no_part_request !! "attachment"%string = None
  ∧ create_post example_lib no_part_request later two_posts
    = (Raise (BadRequestKeyError "attachment"), two_posts)
  ∧ http_status (Raise (BadRequestKeyError "attachment")) = 400.
Proof.
  split; [reflexivity|].
  destruct (create_post_without_attachment_part example_lib no_part_request later
              two_posts eq_refl) as (r & E & Hs & Hr).
  rewrite (Hr ltac:(vm_compute; discriminate)) in E. split; [exact E|reflexivity].
Defined.

(** The part present with an empty file name: the post is created, with no
    attachment. *)
Lemma create_post_with_empty_file_part :
  files hello_request !! "attachment"%string = Some no_file
  ∧ (create_post example_lib hello_request (env_at 1 2 100) empty_world).1
    = Ok (redirect (py "/"))
  ∧ map post_attachment
      (posts (create_post example_lib hello_request (env_at 1 2 100) empty_world).2)
    = [VNone].
Proof. vm_compute. repeat split; reflexivity. Qed.

Lemma create_post_inserts_after_refused_upload_witness :
  upload_file example_lib later text_file two_posts
  = (Ok (VStr ERROR_FILE_TYPE_NOT_ALLOWED), two_posts)
  ∧ ∃ enc v,
      utf8_encode (form_content text_upload_request) = Some enc
      ∧ upload_rejected v
      ∧ create_post example_lib text_upload_request later two_posts =
          (Ok (redirect (py "/")),
           {| posts := posts two_posts
                       ++ [new_post text_upload_request later (b64encode enc) v];
              fs := fs two_posts;
              calls := calls two_posts
                       ++ [posts_insert_one
                             (new_post text_upload_request later (b64encode enc) v)] |}).
Proof.
  split; [vm_compute; reflexivity|].
  apply (create_post_inserts_after_refused_upload example_lib text_upload_request later
           two_posts text_file).
  - vm_compute. discriminate.
  - reflexivity.
  - reflexivity.
  - vm_compute. reflexivity.
  - rewrite two_posts_posts. vm_compute.
    intros [E|[E|E%elem_of_nil]%elem_of_cons]%elem_of_cons; [discriminate..|done].
  - vm_compute. reflexivity.
Defined.

(** The same run, evaluated: the refusal message is what gets stored. *)
Lemma refused_upload_is_stored_as_attachment :
  (create_post example_lib text_upload_request (env_at 1 2 100) empty_world).1
  = Ok (redirect (py "/"))
  ∧ map post_attachment
      (posts (create_post example_lib text_upload_request (env_at 1 2 100) empty_world).2)
    = [VStr (py "File type not allowed")].
Proof. vm_compute. split; reflexivity. Qed.

Lemma update_post_never_requires_id_witness :
  form update_without_id !! "id"%string = None
  ∧ update_post example_lib update_without_id later two_posts
    = (Ok not_found,
       {| posts := posts two_posts; fs := fs two_posts;
          calls := calls two_posts
                   ++ [posts_update_one (oid 9) (py "alice") (content_fields (pyb "hi"))] |})
  ∧ Ok not_found ≠ Ok id_required.
Proof.
  split; [reflexivity|].
  destruct (update_post_never_requires_id example_lib update_without_id later two_posts)
    as (r & w' & E & Hne & _).
  assert (update_post example_lib update_without_id later two_posts
          = (Ok not_found,
             {| posts := posts two_posts; fs := fs two_posts;
                calls := calls two_posts
                         ++ [posts_update_one (oid 9) (py "alice")
                               (content_fields (pyb "hi"))] |})) as E'
    by (vm_compute; reflexivity).
  split; [exact E'|]. rewrite E' in E. injection E as <- _. exact Hne.
Defined.



(** The sanitizer on concrete strings: a partial match is no match, and a
    string the cleaner would alter is refused even where the pattern lets
    it through. *)
Lemma validate_sanitize_examples :
  validate_sanitize example_lib (py "Hello, world!") POST_REGEX = true
  ∧ validate_sanitize example_lib (py "Hello <b>") POST_REGEX = false
  ∧ validate_sanitize example_lib (py "") POST_REGEX = false
  ∧ re_fullmatch (RStar (RSet [CRange 0 1114111])) (py "a<b") = true
  ∧ validate_sanitize example_lib (py "a<b") (RStar (RSet [CRange 0 1114111])) = false.
Proof. vm_compute. repeat split; reflexivity. Qed.

(** * More of the code *)

(** ** File names, uploads and bulk validation *)

Lemma after_last_dot_None s : after_last_dot s = None ↔ 46 ∉ s.
Proof.
  induction s as [|c t IH]; cbn [after_last_dot].
  - split; [intros _; apply not_elem_of_nil|done].
  - rewrite not_elem_of_cons. destruct (after_last_dot t) as [r|].
    + split; [done|]. intros [_ H]. by apply IH in H.
    + destruct (N.eqb_spec c 46) as [->|Hc]; split; try done.
      * intros [H _]. done.
      * intros _. split; [congruence|]. by apply IH.
Qed.

Lemma after_last_dot_Some s ext :
  after_last_dot s = Some ext ↔ ∃ name, s = name ++ 46 :: ext ∧ 46 ∉ ext.
Proof.
  split.
  - revert ext. induction s as [|c t IH]; intros ext; cbn [after_last_dot]; [done|].
    destruct (after_last_dot t) as [r|] eqn:Ht.
    + intros [= <-]. destruct (IH r eq_refl) as (name & -> & Hn).
      by exists (c :: name).
    + destruct (N.eqb_spec c 46) as [->|]; [|done]. intros [= <-].
      exists []. split; [done|]. by apply after_last_dot_None.
  - intros (name & -> & Hn). induction name as [|c name IH]; cbn [app after_last_dot].
    + apply after_last_dot_None in Hn. by rewrite Hn.
    + by rewrite IH.
Qed.

(** X1: [allowed_file] accepts a name exactly when it has a dot and what
    follows its last dot, lowercased, is one of the six extensions. *)
Theorem allowed_file_iff filename :
  allowed_file filename = true
  ↔ ∃ name ext, filename = name ++ [46] ++ ext ∧ (46 ∉ ext)
                ∧ lower ext ∈ ALLOWED_FILE_EXTENSIONS.
Proof.
  unfold allowed_file. rewrite andb_true_iff, bool_decide_eq_true. split.
  - intros [_ H]. destruct (after_last_dot filename) as [ext|] eqn:E; [|done].
    apply bool_decide_eq_true in H. apply after_last_dot_Some in E as (name & -> & Hn).
    by exists name, ext.
  - intros (name & ext & -> & Hn & Hext). split.
    + apply elem_of_app. right. by left.
    + assert (after_last_dot (name ++ [46] ++ ext) = Some ext) as ->
        by (apply after_last_dot_Some; by exists name).
      by apply bool_decide_eq_true.
Qed.

Section Upload.
Context (lib : Libs).

(** X2: [upload_file] hands out an identifier exactly when the file passes
    the four checks and the store takes the blob; the blob then holds the
    bytes as uploaded, under the sanitized client name (the uuid-prefixed
    name is not used) and the sniffed type. In every other case the blob
    store is as before. *)
Theorem upload_file_stores_iff env f w :
  ((∃ o, (upload_file lib env f w).1 = Ok (VObjectId o))
   ↔ upload_invalid lib f = false ∧ new_file_id env ∉ map file__id (fs w))
  ∧ (upload_invalid lib f = false → new_file_id env ∉ map file__id (fs w) →
     upload_file lib env f w
     = (Ok (VObjectId (new_file_id env)),
        {| posts := posts w;
           fs := fs w ++ [stored_blob lib env f];
           calls := calls w ++ [fs_put (stream f) (secure_filename lib (filename f))
                                  (magic_from_buffer lib (stream f))] |}))
  ∧ ((∀ o, (upload_file lib env f w).1 ≠ Ok (VObjectId o)) →
     posts (upload_file lib env f w).2 = posts w
     ∧ fs (upload_file lib env f w).2 = fs w).
Proof.
  unfold upload_invalid, upload_file, stored_blob, validate_file_type.
  destruct (_ <? _); cbn [orb fst].
  { split; [split; [by intros [o ?]|by intros [? _]]|]. split; [done|]. done. }
  destruct (_ =? _); cbn [orb fst].
  { split; [split; [by intros [o ?]|by intros [? _]]|]. split; [done|]. done. }
  destruct (allowed_file _); cbn [orb negb fst].
  2:{ split; [split; [by intros [o ?]|by intros [? _]]|]. split; [done|]. done. }
  case_bool_decide as Hm; cbn [negb].
  2:{ split; [split; [by intros [o ?]|by intros [? _]]|]. split; [done|]. done. }
  unfold mbind, M_bind, gridfs_put, mret, M_ret.
  case_bool_decide as Hd; cbn [fst snd record_call posts fs calls].
  - split; [split; [by intros [o ?]|by intros [_ ?]]|]. split; [done|]. done.
  - split; [split; [done|by eexists]|]. split; [done|].
    intros H. by destruct (H (new_file_id env)).
Qed.

End Upload.

Section Bulk.
Context (lib : Libs).

(** X3: for an input key [index] other than the pattern key (which the
    record keeps apart), [validate_sanitize_bulk] returns [True] exactly
    when every dictionary has the input key and its input is [None] or
    passes [validate_sanitize] against the dictionary's pattern. The empty
    list passes. *)
Theorem validate_sanitize_bulk_true_iff data_list index :
  index ≠ "pattern"%string →
  validate_sanitize_bulk lib data_list index = BulkReturn true
  ↔ Forall (item_passes lib index) data_list.
Proof.
  intros _. induction data_list as [|d l IH]; cbn [validate_sanitize_bulk].
  - split; [constructor|done].
  - rewrite Forall_cons, <- IH. unfold item_passes.
    destruct (item_fields d !! index) as [[v|]|].
    + destruct (item_pattern d) as [p|].
      * destruct (validate_sanitize lib v p) eqn:Hv; cbn [negb].
        -- split; [intros H; split; [right; by exists v, p|done]|by intros [_ ?]].
        -- split; [done|]. intros [[?|(v' & p' & [= <-] & [= <-] & ?)] _]; congruence.
      * split; [done|]. intros [[?|(v' & p' & _ & ? & _)] _]; done.
    + split; [intros H; split; [by left|done]|by intros [_ ?]].
    + split; [done|]. intros [[?|(v' & p' & ? & _)] _]; done.
Qed.

(** X4: the first dictionary that fails or raises decides: over a
    concatenation, the second part is looked at only when the first part
    returned [True]. *)
Theorem validate_sanitize_bulk_app l1 l2 index :
  index ≠ "pattern"%string →
  validate_sanitize_bulk lib (l1 ++ l2) index
  = match validate_sanitize_bulk lib l1 index with
    | BulkReturn true => validate_sanitize_bulk lib l2 index
    | r => r
    end.
Proof.
  intros _. induction l1 as [|d l1 IH]; cbn [app validate_sanitize_bulk]; [done|].
  destruct (item_fields d !! index) as [[v|]|]; [|done..].
  destruct (item_pattern d) as [p|]; [|done].
  by destruct (validate_sanitize lib v p).
Qed.

End Bulk.

(** ** What the patterns accept *)

Ltac inv_matches H := inversion H; subst; clear H.

Lemma cat_inv r1 r2 p u :
  matches (RCat r1 r2) p u → ∃ q, matches r1 p q ∧ matches r2 q u.
Proof. intros H. inv_matches H. eauto. Qed.

Lemma set_inv items p q :
  matches (RSet items) p q →
  ∃ c, p.2 = c :: q.2 ∧ q.1 = S p.1 ∧ in_class items c = true.
Proof. intros H. inv_matches H. by eexists. Qed.

Lemma alt_inv r1 r2 p q :
  matches (RAlt r1 r2) p q → matches r1 p q ∨ matches r2 p q.
Proof. intros H. inv_matches H; auto. Qed.

Lemma eol_inv p q : matches REol p q → q = p.
Proof. intros H. by inv_matches H. Qed.

Lemma bol_inv p q : matches RBol p q → q = p.
Proof. intros H. by inv_matches H. Qed.

Lemma star_set_inv items p q :
  matches (RStar (RSet items)) p q →
  ∃ pre, p.2 = pre ++ q.2 ∧ forallb (in_class items) pre = true.
Proof.
  remember (RStar (RSet items)) as r eqn:Hr. intros H. revert Hr.
  induction H as [| | | | |? ? ? ? ? _ _ _ _| | |r p|r p q u H1 _ H2 IH2|]; intros Hr; try done.
  - by exists [].
  - injection Hr as ->. destruct (IH2 eq_refl) as (pre & Hp & Hf).
    apply set_inv in H1 as (c & Hc & _ & Hin).
    exists (c :: pre). cbn. rewrite Hc, Hp, Hin, Hf. done.
Qed.

Lemma plus_set_inv items p q :
  matches (RPlus (RSet items)) p q →
  ∃ pre, pre ≠ [] ∧ p.2 = pre ++ q.2 ∧ forallb (in_class items) pre = true.
Proof.
  intros H. inv_matches H.
  match goal with H1 : matches (RSet _) _ _, H2 : matches (RStar _) _ _ |- _ =>
    apply set_inv in H1 as (c & Hc & _ & Hin);
    apply star_set_inv in H2 as (pre & Hp & Hf) end.
  exists (c :: pre). cbn. rewrite Hc, Hp, Hin, Hf. done.
Qed.

Lemma lit_inv t p q : matches (lit t) p q → p.2 = t ++ q.2.
Proof.
  revert p. induction t as [|c t IH]; intros p H; cbn [lit foldr] in H.
  - by inv_matches H.
  - apply cat_inv in H as (u & H1 & H2). apply set_inv in H1 as (d & Hd & _ & Hin).
    apply IH in H2. unfold in_class, existsb, in_item in Hin.
    rewrite orb_false_r in Hin. apply N.eqb_eq in Hin as ->. rewrite Hd, H2. done.
Qed.

Lemma star_set_intro items pre : ∀ i rest,
  forallb (in_class items) pre = true →
  matches (RStar (RSet items)) (i, pre ++ rest) ((i + length pre)%nat, rest).
Proof.
  induction pre as [|c pre IH]; intros i rest Hf; cbn [app length].
  - rewrite Nat.add_0_r. constructor.
  - cbn [forallb] in Hf. apply andb_true_iff in Hf as [Hc Hf].
    eapply m_star_cons; [by apply m_set|].
    rewrite Nat.add_succ_r. apply (IH (S i)). done.
Qed.

Lemma plus_set_intro items pre i rest :
  pre ≠ [] → forallb (in_class items) pre = true →
  matches (RPlus (RSet items)) (i, pre ++ rest) ((i + length pre)%nat, rest).
Proof.
  destruct pre as [|c pre]; [done|]. intros _ Hf. cbn [forallb] in Hf.
  apply andb_true_iff in Hf as [Hc Hf]. cbn [app length].
  eapply m_plus; [by apply m_set|].
  rewrite Nat.add_succ_r. by apply (star_set_intro items pre (S i)).
Qed.

Lemma in_class_alnum c :
  in_class [CRange 65 90; CRange 97 122; CRange 48 57] c = true
  ↔ 65 ≤ c ≤ 90 ∨ 97 ≤ c ≤ 122 ∨ 48 ≤ c ≤ 57.
Proof.
  unfold in_class, existsb, in_item.
  rewrite orb_false_r, !orb_true_iff, !andb_true_iff, !N.leb_le. tauto.
Qed.

Lemma in_class_alpha c :
  in_class [CRange 65 90; CRange 97 122] c = true ↔ 65 ≤ c ≤ 90 ∨ 97 ≤ c ≤ 122.
Proof.
  unfold in_class, existsb, in_item.
  rewrite orb_false_r, !orb_true_iff, !andb_true_iff, !N.leb_le. tauto.
Qed.

Lemma fullmatch_class_plus_iff items (P : N → Prop) s :
  (∀ c, in_class items c = true ↔ P c) →
  re_fullmatch (RCat RBol (RCat (RPlus (RSet items)) REol)) s = true
  ↔ s ≠ [] ∧ Forall P s.
Proof.
  intros HP. rewrite fullmatch_class_plus, andb_true_iff, forallb_forall, Forall_forall.
  setoid_rewrite list_elem_of_In. setoid_rewrite HP.
  destruct s; cbn [str_bool]; intuition congruence.
Qed.

(** X5: with [POST_REGEX], [validate_sanitize] accepts only non-empty
    strings made of the characters of the class, so never one that holds
    [<], [>] or [&], whatever the cleaner does. *)
Theorem post_pattern_accepts s :
  (re_fullmatch POST_REGEX s = true
   ↔ s ≠ [] ∧ Forall (λ c, in_class post_class c = true) s)
  ∧ ∀ lib, validate_sanitize lib s POST_REGEX = true →
           s ≠ [] ∧ (60 ∉ s) ∧ (62 ∉ s) ∧ (38 ∉ s).
Proof.
  assert (re_fullmatch POST_REGEX s = true
          ↔ s ≠ [] ∧ Forall (λ c, in_class post_class c = true) s) as H.
  { by apply fullmatch_class_plus_iff. }
  split; [done|]. intros lib Hv.
  destruct (validate_post_facts lib s Hv) as (Hm & _).
  apply H in Hm as [Hne Hall]. split; [done|].
  rewrite Forall_forall in Hall.
  repeat split; intros Hin; apply Hall in Hin; vm_compute in Hin; done.
Qed.

(** X6: [TEXT_REGEX] accepts exactly the non-empty strings of ASCII letters
    and digits, [LEGAL_TEXT_REGEX] those of ASCII letters. *)
Theorem text_patterns_accept s :
  (re_fullmatch TEXT_REGEX s = true
   ↔ s ≠ [] ∧ Forall (λ c, 65 ≤ c ≤ 90 ∨ 97 ≤ c ≤ 122 ∨ 48 ≤ c ≤ 57) s)
  ∧ (re_fullmatch LEGAL_TEXT_REGEX s = true
     ↔ s ≠ [] ∧ Forall (λ c, 65 ≤ c ≤ 90 ∨ 97 ≤ c ≤ 122) s).
Proof.
  split.
  - apply fullmatch_class_plus_iff, in_class_alnum.
  - apply fullmatch_class_plus_iff, in_class_alpha.
Qed.

(** X7: [GEN_REGEX] accepts the five values and nothing else. *)
Theorem gen_pattern_accepts s :
  re_fullmatch GEN_REGEX s = true ↔ s ∈ genders.
Proof.
  split.
  - intros (n & H)%re_fullmatch_matches_whole. unfold GEN_REGEX in H.
    apply cat_inv in H as (q1 & ->%bol_inv & H).
    apply cat_inv in H as (q2 & H & <-%eol_inv). cbn [snd] in *.
    unfold genders.
    apply alt_inv in H as [H|H]; [|apply alt_inv in H as [H|H];
      [|apply alt_inv in H as [H|H]; [|apply alt_inv in H as [H|H]]]];
      apply lit_inv in H; cbn [snd] in H; rewrite app_nil_r in H; subst s; set_solver.
  - unfold genders. rewrite !elem_of_cons, elem_of_nil.
    intros [->|[->|[->|[->|[->|[]]]]]]; vm_compute; reflexivity.
Qed.

(** X8: [EMAIL_REGEX] accepts exactly local@domain.tld with a non-empty
    local part of a-z 0-9 . _ % + -, a non-empty domain of a-z 0-9 . -,
    and a last label of two or more of a-z. *)
Theorem email_pattern_accepts s :
  re_fullmatch EMAIL_REGEX s = true
  ↔ ∃ loc dom tld,
      s = loc ++ [64] ++ dom ++ [46] ++ tld
      ∧ loc ≠ [] ∧ forallb (in_class email_local) loc = true
      ∧ dom ≠ [] ∧ forallb (in_class email_domain) dom = true
      ∧ (2 ≤ length tld)%nat ∧ forallb (in_class email_tld) tld = true.
Proof.
  rewrite re_fullmatch_matches_whole. unfold matches_whole, EMAIL_REGEX. split.
  - intros (n & H).
    apply cat_inv in H as (q1 & (loc & Hl1 & Hl2 & Hl3)%plus_set_inv & H).
    apply cat_inv in H as (q2 & (c1 & Hc1 & _ & Hc1')%set_inv & H).
    apply cat_inv in H as (q3 & (dom & Hd1 & Hd2 & Hd3)%plus_set_inv & H).
    apply cat_inv in H as (q4 & (c2 & Hc2 & _ & Hc2')%set_inv & H).
    apply cat_inv in H as (q5 & (t1 & Ht1 & _ & Ht1')%set_inv & H).
    apply cat_inv in H as (q6 & (t2 & Ht2 & _ & Ht2')%set_inv & H).
    apply cat_inv in H as (q7 & (tl & Htl & Htl')%star_set_inv & <-%eol_inv).
    cbn [fst snd] in *.
    unfold in_class, existsb, in_item in Hc1', Hc2'.
    rewrite orb_false_r in Hc1', Hc2'. apply N.eqb_eq in Hc1', Hc2'. subst c1 c2.
    exists loc, dom, (t1 :: t2 :: tl).
    rewrite Hl2, Hc1, Hd2, Hc2, Ht1, Ht2, Htl, app_nil_r.
    split; [done|]. repeat (split; [done|]). split; [cbn; lia|].
    cbn [forallb]. by rewrite Ht1', Ht2', Htl'.
  - intros (loc & dom & tld & -> & Hl & Hlf & Hd & Hdf & Hlen & Htf).
    destruct tld as [|t1 [|t2 tl]]; [cbn in Hlen; lia..|].
    cbn [forallb] in Htf. apply andb_true_iff in Htf as [Ht1 Htf].
    apply andb_true_iff in Htf as [Ht2 Htf].
    replace (t1 :: t2 :: tl) with (t1 :: t2 :: tl ++ []) by (by rewrite app_nil_r).
    eexists.
    eapply m_cat; [by apply plus_set_intro|].
    eapply m_cat; [by apply m_set|].
    eapply m_cat; [by apply plus_set_intro|].
    eapply m_cat; [by apply m_set|].
    eapply m_cat; [by apply m_set|].
    eapply m_cat; [by apply m_set|].
    eapply m_cat.
    + by apply star_set_intro.
    + apply m_eol_end.
Qed.

(** ** The order of a listing *)

Lemma insert_desc_perm p l : insert_desc p l ≡ₚ p :: l.
Proof.
  induction l as [|q l IH]; cbn [insert_desc]; [done|].
  destruct (_ <? _)%Z; [done|]. rewrite IH. apply Permutation_swap.
Qed.

Lemma sort_desc_perm l : sort_desc l ≡ₚ l.
Proof.
  unfold sort_desc. induction l as [|p l IH]; cbn [foldr]; [done|].
  by rewrite insert_desc_perm, IH.
Qed.

Lemma insert_desc_sorted p l :
  StronglySorted newer_first l → StronglySorted newer_first (insert_desc p l).
Proof.
  induction 1 as [|q l Hs IH Hq]; cbn [insert_desc].
  - repeat constructor.
  - destruct (Z.ltb_spec (post_created_at q) (post_created_at p)) as [Hlt|Hge].
    + constructor; [by constructor|]. constructor; [unfold newer_first; lia|].
      apply (Forall_impl _ _ _ Hq). unfold newer_first. lia.
    + constructor; [done|]. apply Forall_forall. intros x Hx.
      apply insert_desc_elem in Hx as [->|Hx]; [unfold newer_first; lia|].
      by apply (proj1 (Forall_forall _ _) Hq).
Qed.

Lemma sort_desc_sorted l : StronglySorted newer_first (sort_desc l).
Proof.
  unfold sort_desc. induction l as [|p l IH]; cbn [foldr]; [constructor|].
  by apply insert_desc_sorted.
Qed.

Section ListingOrder.
Context (lib : Libs).

(** What [get_posts] puts in an entry, field by field. *)
Lemma enrich_fields p v :
  enrich lib p = Some v →
  view__id v = ObjectId_str (post__id p)
  ∧ view_username v = post_username p
  ∧ view_attachment_id v = value_str (post_attachment p)
  ∧ view_attachment v = match post_attachment p with
                        | VNone => None
                        | a => Some (py "/api/files/" ++ value_str a)
                        end
  ∧ view_created_at v = isoformat lib (post_created_at p)
  ∧ utf8_decode (post_content p) = Some (view_content v).
Proof.
  unfold enrich. destruct (utf8_decode (post_content p)) as [c|]; [|done].
  cbn. intros [= <-]. cbn. done.
Qed.

(** X9: from a reachable state and with a Referer, [get_posts] answers
    with one entry per selected post (all posts, or those of [username]),
    newest first, and leaves both stores as they were. *)
Theorem get_posts_lists_selection_newest_first username req w :
  reachable lib w →
  headers req !! "Referer"%string ≠ None →
  ∃ views sorted w',
    get_posts lib username req w = (Ok (jsonify_posts views), w')
    ∧ posts w' = posts w ∧ fs w' = fs w
    ∧ sorted ≡ₚ selected username (posts w)
    ∧ StronglySorted newer_first sorted
    ∧ Forall2 (λ p v, enrich lib p = Some v) sorted views.
Proof.
  intros [Hok _]%reachable_world_ok Hr.
  destruct (get_posts_eval lib username req w Hr Hok) as (views & found & E & Hm & Hf).
  exists views, (sort_desc found), (record_call (posts_find
    (match username with Some u => if str_bool u then Some u else None | None => None end)) w).
  split; [done|]. split; [done|]. split; [done|].
  split; [rewrite sort_desc_perm, Hf; done|].
  split; [apply sort_desc_sorted|]. by apply mapM_Some.
Qed.

End ListingOrder.

(** ** Status codes *)

Section Statuses.
Context (lib : Libs).

Ltac in_list :=
  solve [unfold regenerate_session, mret, M_ret; cbn [fst http_status];
         repeat first [by left | right]].

(** X17: the statuses a client can see. [create_post] answers 302, 400 or
    500; [update_post] and [delete_post] 302, 400, 403 or 500; [get_posts]
    200, 400 or 500. The 413 that [upload_file] pairs with its size message is
    never one of them. *)
Theorem handler_statuses req env username w :
  http_status (create_post lib req env w).1 ∈ [302; 400; 500]
  ∧ http_status (update_post lib req env w).1 ∈ [302; 400; 403; 500]
  ∧ http_status (delete_post req env w).1 ∈ [302; 400; 403; 500]
  ∧ http_status (get_posts lib username req w).1 ∈ [200; 400; 500].
Proof.
  split; [|split; [|split]].
  - unfold create_post, getitem, raise, try_except, mbind, M_bind, mret, M_ret.
    destruct (is_direct_call req); [in_list|].
    destruct (files req !! "attachment"%string) as [a|]; [|in_list].
    destruct (negb _); [in_list|]. destruct (negb _); [in_list|].
    destruct (utf8_encode _); [|in_list].
    destruct (attachment_step lib env a w) as ([v|e] & w1 & Hu & _);
      unfold mbind, M_bind, mret, M_ret in Hu; rewrite Hu; [|in_list].
    rewrite insert_one_eq. case_bool_decide; in_list.
  - unfold update_post, raise, mbind, M_bind, mret, M_ret.
    destruct (is_direct_call req); [in_list|].
    destruct (ObjectId_cases (new_post_id env) (form req !! "id"%string) w)
      as [(pid & -> & _)|(e & ->)]; [|destruct e; in_list].
    cbn [ObjectId_bool negb].
    destruct (_ && _); [destruct (utf8_encode _); [|in_list]|];
      case_bool_decide; try in_list;
      unfold update_one; cbn [fst snd]; destruct (_ =? _)%nat; in_list.
  - unfold delete_post, raise, mbind, M_bind, mret, M_ret.
    destruct (is_direct_call req); [in_list|].
    destruct (ObjectId_cases (new_post_id env) (form req !! "id"%string) w)
      as [(pid & -> & _)|(e & ->)]; [|destruct e; in_list].
    destruct (negb _).
    + destruct (ObjectId_cases (new_file_id env) (form req !! "attachment_id"%string) w)
        as [(aid & -> & _)|(e & ->)]; [|destruct e; in_list].
      cbn [ObjectId_bool negb]. unfold try_except, find_one, gridfs_delete, delete_one.
      destruct (List.find _ _); [|in_list]. cbn [fst snd].
      destruct (_ =? _)%nat; in_list.
    + cbn [ObjectId_bool negb]. unfold try_except, find_one, gridfs_delete, delete_one.
      destruct (List.find _ _); [|in_list]. cbn [fst snd].
      destruct (_ =? _)%nat; in_list.
  - unfold get_posts, raise, mbind, M_bind, mret, M_ret, find_sorted.
    destruct (is_direct_call req); [in_list|].
    destruct (mapM _ _); in_list.
Qed.

End Statuses.

(** ** The life of a post *)

Lemma lstrip_spaces s : forallb is_space s = true → lstrip s = [].
Proof.
  induction s as [|c s IH]; [done|]. cbn [forallb lstrip].
  intros [-> H]%andb_true_iff. by apply IH.
Qed.

Lemma strip_spaces s : forallb is_space s = true → strip s = [].
Proof. intros H. unfold strip, rstrip. by rewrite (lstrip_spaces s H). Qed.

Lemma update_first_found f g (l : list Post) p :
  List.find f l = Some p →
  ∃ l1 l2, l = l1 ++ p :: l2 ∧ update_first f g l = (1%nat, l1 ++ g p :: l2).
Proof.
  induction l as [|q l IH]; [done|]. cbn [List.find update_first].
  destruct (f q) eqn:Hq.
  - intros [= ->]. by exists [], l.
  - intros (l1 & l2 & -> & Hu)%IH. exists (q :: l1), l2. by rewrite Hu.
Qed.


Section Lifecycle.
Context (lib : Libs).

Lemma owner_finds_own_post (l : list Post) p user :
  NoDup (map post__id l) → p ∈ l → post_username p = user →
  List.find (id_owner (post__id p) user) l = Some p.
Proof.
  intros Hnd Hp Hu. apply find_unique; [done|by apply id_owner_true|].
  intros q Hq [Hqid _]%id_owner_true. by apply (unique_id l).
Qed.

Lemma owner_delete_eval req env w p aid :
  NoDup (map post__id (posts w)) →
  p ∈ posts w →
  post_username p = current_user_id req →
  headers req !! "Referer"%string ≠ None →
  resolves (new_post_id env) (form req !! "id"%string) (post__id p) →
  resolves_attachment (new_file_id env) (form req !! "attachment_id"%string) aid →
  ∃ l1 l2,
    posts w = l1 ++ p :: l2
    ∧ delete_post req env w =
        (Ok (redirect (py "/")),
         {| posts := l1 ++ l2;
            fs := List.filter (λ f, negb (bool_decide (Some (file__id f) = aid))) (fs w);
            calls := calls w
                     ++ [posts_find_one (post__id p) (current_user_id req);
                         fs_delete aid;
                         posts_delete_one (post__id p) (current_user_id req)] |}).
Proof.
  intros Hnd Hp Hu Hr Hid Ha.
  pose proof (owner_finds_own_post _ _ _ Hnd Hp Hu) as Hfind.
  destruct (delete_first_found _ _ _ Hfind) as (l1 & l2 & Hl & Hd & _).
  exists l1, l2. split; [done|].
  rewrite (delete_post_eval req env w (post__id p) aid) by done.
  rewrite Hfind. cbn zeta. by rewrite Hd.
Qed.

(** X16: when the owner deletes a post, the post record goes, and the blob
    that goes with it is the one the form names in [attachment_id]
    (none for the text None, a freshly generated identifier when the field
    is missing), whatever the stored post links to. *)
Theorem owner_delete_removes_post_and_named_blob req env w p s aid :
  NoDup (map post__id (posts w)) →
  p ∈ posts w →
  post_username p = current_user_id req →
  headers req !! "Referer"%string ≠ None →
  form req !! "id"%string = Some s →
  ObjectId_parse s = Some (post__id p) →
  resolves_attachment (new_file_id env) (form req !! "attachment_id"%string) aid →
  ∃ l1 l2,
    posts w = l1 ++ p :: l2
    ∧ delete_post req env w =
        (Ok (redirect (py "/")),
         {| posts := l1 ++ l2;
            fs := List.filter (λ f, negb (bool_decide (Some (file__id f) = aid))) (fs w);
            calls := calls w
                     ++ [posts_find_one (post__id p) (current_user_id req);
                         fs_delete aid;
                         posts_delete_one (post__id p) (current_user_id req)] |}).
Proof.
  intros Hnd Hp Hu Hr Hs Hid Ha. apply owner_delete_eval; try done.
  unfold resolves. by rewrite Hs.
Qed.

(** X10: what [get_posts] lists can be fed back to [delete_post]. For a
    cleanly linked post of the caller, whatever else the store holds, a
    request that carries the entry's [_id] and [attachment_id] deletes
    that post and its blob. *)
Theorem listed_post_can_be_deleted username req0 req env w views w1 v :
  reachable lib w →
  (∀ p, p ∈ posts w → enrich lib p = Some v → well_linked p) →
  get_posts lib username req0 w = (Ok (jsonify_posts views), w1) →
  v ∈ views →
  view_username v = current_user_id req →
  headers req !! "Referer"%string ≠ None →
  form req !! "id"%string = Some (view__id v) →
  form req !! "attachment_id"%string = Some (view_attachment_id v) →
  ∃ p l1 l2,
    enrich lib p = Some v
    ∧ posts w1 = l1 ++ p :: l2
    ∧ delete_post req env w1 =
        (Ok (redirect (py "/")),
         {| posts := l1 ++ l2;
            fs := List.filter
                    (λ f, negb (bool_decide (Some (file__id f) = attachment_ref p)))
                    (fs w1);
            calls := calls w1
                     ++ [posts_find_one (post__id p) (current_user_id req);
                         fs_delete (attachment_ref p);
                         posts_delete_one (post__id p) (current_user_id req)] |}).
Proof.
  intros Hreach Hlinked Hget Hv Hu Hr Hid Hatt.
  assert (headers req0 !! "Referer"%string ≠ None) as Hr0.
  { intros H. unfold get_posts in Hget. by rewrite is_direct_call_true in Hget. }
  pose proof (reachable_unique_ids lib w Hreach) as Hnd.
  destruct (reachable_world_ok lib w Hreach) as [Hok _].
  destruct (get_posts_eval lib username req0 w Hr0 Hok) as (views' & found & E & Hm & Hf).
  rewrite Hget in E. injection E as <- ->.
  apply mapM_Some in Hm.
  apply list_elem_of_lookup in Hv as [i Hi].
  destruct (Forall2_lookup_r _ _ _ _ _ Hm Hi) as (p & Hp & Hpv).
  apply list_elem_of_lookup_2 in Hp. apply (proj1 (sort_desc_elem _ _)) in Hp.
  assert (p ∈ posts w) as Hin.
  { rewrite Hf in Hp. destruct username as [u|]; [|exact Hp].
    destruct (str_bool u); [|exact Hp].
    apply list_elem_of_In, filter_In in Hp as [Hp _]. by apply list_elem_of_In. }
  destruct (enrich_fields lib p v Hpv) as (Hvid & Hvu & Hva & _).
  destruct (Hlinked p Hin Hpv) as [Hlen Hlink].
  exists p.
  destruct (owner_delete_eval req env
              (record_call (posts_find
                 (match username with
                  | Some u => if str_bool u then Some u else None
                  | None => None
                  end)) w) p (attachment_ref p)) as (l1 & l2 & Hl & Hd); try done.
  - congruence.
  - unfold resolves. rewrite Hid, Hvid. by apply ObjectId_parse_str.
  - unfold resolves_attachment, attachment_ref, resolves. rewrite Hatt, Hva.
    destruct Hlink as [->|(a & -> & Hlena)]; cbn [value_str].
    + by rewrite decide_True.
    + rewrite decide_False.
      * exists a. split; [done|]. by apply ObjectId_parse_str.
      * intros [= Eq]. apply (f_equal length) in Eq.
        unfold ObjectId_str in Eq. rewrite length_hexlify, Hlena in Eq. done.
  - by exists l1, l2.
Qed.

(** X11: an [id] that is not the text of an ObjectId makes [update_post]
    and [delete_post] raise [InvalidId] (a 500 for the client) before any
    store is asked; so does, in [delete_post], an [attachment_id] that is
    neither the text None nor the text of an ObjectId, whatever post the
    [id] names. *)
Theorem malformed_id_raises req env w s :
  headers req !! "Referer"%string ≠ None →
  ObjectId_parse s = None →
  (form req !! "id"%string = Some s →
   update_post lib req env w = (Raise (InvalidId s), w)
   ∧ delete_post req env w = (Raise (InvalidId s), w))
  ∧ (∀ pid, resolves (new_post_id env) (form req !! "id"%string) pid →
     form req !! "attachment_id"%string = Some s → s ≠ py "None" →
     delete_post req env w = (Raise (InvalidId s), w))
  ∧ http_status (Raise (InvalidId s)) = 500.
Proof.
  intros Hr Hs. split; [|split; [|done]].
  - intros Hid. unfold update_post, delete_post.
    rewrite is_direct_call_false by done.
    unfold mbind, M_bind, ObjectId_. by rewrite Hid, Hs.
  - intros pid Hpid Ha Hn. unfold delete_post.
    rewrite is_direct_call_false by done.
    unfold mbind at 1, M_bind at 1. rewrite (ObjectId_resolves _ _ pid) by done.
    unfold mbind, M_bind, ObjectId_, mret, M_ret. rewrite Ha, Hs.
    rewrite bool_decide_eq_false_2 by congruence. done.
Qed.

(** X12: [create_post] answers "Post content is required" when the content
    field is missing, empty or only white space, and "Invalid data" when
    the stripped content fails [validate_sanitize]; in both cases nothing
    is uploaded or stored, whatever file came with the request. *)
Theorem create_post_rejects_content req env w a :
  headers req !! "Referer"%string ≠ None →
  files req !! "attachment"%string = Some a →
  (match form req !! "content"%string with
   | Some raw => forallb is_space raw = true
   | None => True
   end →
   create_post lib req env w
   = (Ok (jsonify_error (py "Post content is required") 400), w))
  ∧ (form_content req ≠ [] →
     validate_sanitize lib (form_content req) POST_REGEX = false →
     create_post lib req env w = (Ok (jsonify_error (py "Invalid data") 400), w)).
Proof.
  intros Hr Hf. unfold create_post. fold (form_content req).
  rewrite is_direct_call_false by done. unfold getitem. rewrite Hf.
  unfold mbind at 1, M_bind at 1, mret at 1, M_ret at 1. split.
  - intros Hc. assert (form_content req = []) as ->; [|done].
    unfold form_content. destruct (form req !! "content"%string) as [raw|]; [|done].
    by apply strip_spaces.
  - intros Hne Hv. destruct (form_content req); [done|]. cbn [str_bool negb].
    by rewrite Hv.
Qed.

Lemma upload_file_valid env f w :
  upload_invalid lib f = false →
  new_file_id env ∉ map file__id (fs w) →
  upload_file lib env f w
  = (Ok (VObjectId (new_file_id env)),
     {| posts := posts w;
        fs := fs w ++ [stored_blob lib env f];
        calls := calls w ++ [fs_put (stream f) (secure_filename lib (filename f))
                               (magic_from_buffer lib (stream f))] |}).
Proof.
  unfold upload_invalid, upload_file, stored_blob, validate_file_type.
  destruct (_ <? _); [done|]. destruct (_ =? _); [done|].
  destruct (allowed_file _); [|done]. cbn [orb negb fst].
  case_bool_decide as Hm; [|done]. intros _ Hfresh. cbn [negb].
  unfold mbind, M_bind, gridfs_put, mret, M_ret.
  by rewrite bool_decide_eq_false_2.
Qed.

Lemma create_post_upload_step req env w f enc :
  headers req !! "Referer"%string ≠ None →
  files req !! "attachment"%string = Some f →
  str_bool (filename f) = true →
  validate_sanitize lib (form_content req) POST_REGEX = true →
  utf8_encode (form_content req) = Some enc →
  upload_invalid lib f = false →
  new_file_id env ∉ map file__id (fs w) →
  create_post lib req env w =
    let w1 := {| posts := posts w;
                 fs := fs w ++ [stored_blob lib env f];
                 calls := calls w
                          ++ [fs_put (stream f) (secure_filename lib (filename f))
                                (magic_from_buffer lib (stream f))] |} in
    let doc := new_post req env (b64encode enc) (VObjectId (new_file_id env)) in
    if bool_decide (new_post_id env ∈ map post__id (posts w))
    then (Ok (jsonify_error (py "Failed to create post") 500),
          record_call (posts_insert_one doc) w1)
    else (Ok (redirect (py "/")),
          {| posts := posts w ++ [doc]; fs := fs w1;
             calls := calls w1 ++ [posts_insert_one doc] |}).
Proof.
  intros Hr Hf Hn Hv He Hvalid Hfile.
  destruct (validate_post_facts lib _ Hv) as (_ & _ & Hc & _).
  unfold create_post. fold (form_content req).
  rewrite is_direct_call_false by done. unfold getitem. rewrite Hf.
  unfold mbind at 1, M_bind at 1, mret at 1, M_ret at 1.
  rewrite Hc, Hv, He. cbn [negb]. unfold FileStorage_bool. rewrite Hn.
  unfold mbind, M_bind, try_except. rewrite Hn.
  rewrite (upload_file_valid env f w Hvalid Hfile), insert_one_eq.
  cbn [posts]. fold (new_post req env (b64encode enc) (VObjectId (new_file_id env))).
  cbn zeta. by case_bool_decide.
Qed.

(** X13: with content that passes the sanitizer and a file that passes the
    four checks, [create_post] stores the blob and then the post, which
    links to the blob's identifier. *)
Theorem create_post_with_accepted_upload req env w f :
  headers req !! "Referer"%string ≠ None →
  files req !! "attachment"%string = Some f →
  str_bool (filename f) = true →
  validate_sanitize lib (form_content req) POST_REGEX = true →
  upload_invalid lib f = false →
  new_file_id env ∉ map file__id (fs w) →
  new_post_id env ∉ map post__id (posts w) →
  ∃ enc,
    utf8_encode (form_content req) = Some enc
    ∧ create_post lib req env w =
        (Ok (redirect (py "/")),
         {| posts := posts w
                     ++ [new_post req env (b64encode enc) (VObjectId (new_file_id env))];
            fs := fs w ++ [stored_blob lib env f];
            calls := calls w
                     ++ [fs_put (stream f) (secure_filename lib (filename f))
                           (magic_from_buffer lib (stream f))]
                     ++ [posts_insert_one
                           (new_post req env (b64encode enc)
                              (VObjectId (new_file_id env)))] |}).
Proof.
  intros Hr Hf Hn Hv Hvalid Hfile Hpost.
  destruct (validate_post_facts lib _ Hv) as (_ & _ & _ & [enc He]).
  exists enc. split; [done|].
  rewrite (create_post_upload_step req env w f enc) by done.
  cbn zeta. rewrite bool_decide_eq_false_2 by done. cbn [fs calls].
  by rewrite <- app_assoc.
Qed.

(** X14: no rollback. When the upload succeeded and the content store then
    refuses the insert, [create_post] answers Failed to create post with
    500; no post is added, and the blob just stored stays in the blob
    store. *)
Theorem create_post_keeps_blob_when_insert_fails req env w f :
  headers req !! "Referer"%string ≠ None →
  files req !! "attachment"%string = Some f →
  str_bool (filename f) = true →
  validate_sanitize lib (form_content req) POST_REGEX = true →
  upload_invalid lib f = false →
  new_file_id env ∉ map file__id (fs w) →
  new_post_id env ∈ map post__id (posts w) →
  (create_post lib req env w).1 = Ok (jsonify_error (py "Failed to create post") 500)
  ∧ posts (create_post lib req env w).2 = posts w
  ∧ fs (create_post lib req env w).2 = fs w ++ [stored_blob lib env f].
Proof.
  intros Hr Hf Hn Hv Hvalid Hfile Hpost.
  destruct (validate_post_facts lib _ Hv) as (_ & _ & _ & [enc He]).
  rewrite (create_post_upload_step req env w f enc) by done.
  cbn zeta. by rewrite bool_decide_eq_true_2.
Qed.

Lemma apply_set_content enc p :
  apply_set (content_fields enc) p = with_content p (b64encode enc).
Proof. unfold apply_set, content_fields. by rewrite lookup_insert_eq. Qed.

(** X15: when the owner updates a post with content that passes the
    sanitizer, the post keeps its place and every field but the content,
    which becomes the base64 of the new text; no other post and no blob
    changes. *)
Theorem owner_update_replaces_content req env w p s :
  NoDup (map post__id (posts w)) →
  p ∈ posts w →
  post_username p = current_user_id req →
  headers req !! "Referer"%string ≠ None →
  form req !! "id"%string = Some s →
  ObjectId_parse s = Some (post__id p) →
  validate_sanitize lib (form_content req) POST_REGEX = true →
  ∃ enc l1 l2,
    utf8_encode (form_content req) = Some enc
    ∧ decode_content (b64encode enc) = Some (form_content req)
    ∧ posts w = l1 ++ p :: l2
    ∧ update_post lib req env w =
        (Ok (redirect (py "/")),
         {| posts := l1 ++ with_content p (b64encode enc) :: l2;
            fs := fs w;
            calls := calls w
                     ++ [posts_update_one (post__id p) (current_user_id req)
                           (content_fields enc)] |}).
Proof.
  intros Hnd Hp Hu Hr Hs Hid Hv.
  destruct (validate_post_facts lib _ Hv) as (_ & _ & _ & [enc He]).
  pose proof (owner_finds_own_post _ _ _ Hnd Hp Hu) as Hfind.
  destruct (update_first_found _ (apply_set (content_fields enc)) _ _ Hfind)
    as (l1 & l2 & Hl & Hup).
  exists enc, l1, l2. split; [done|]. split.
  { apply encodes_decode. by exists enc. }
  split; [done|].
  rewrite (update_post_eval lib req env w (post__id p) enc); try done.
  - cbn zeta. rewrite Hup. cbn [fst snd Nat.eqb]. by rewrite apply_set_content.
  - unfold resolves. by rewrite Hs.
Qed.


End Lifecycle.

(** ** More runs on concrete requests *)

Lemma validate_sanitize_bulk_true_iff_witness :
  validate_sanitize_bulk example_lib bulk_example "input" = BulkReturn true
  ↔ Forall (item_passes example_lib "input") bulk_example.
Proof. apply (validate_sanitize_bulk_true_iff example_lib bulk_example "input"). done. Defined.

Lemma validate_sanitize_bulk_app_witness :
  validate_sanitize_bulk example_lib (bulk_markup ++ bulk_example) "input"
  = match validate_sanitize_bulk example_lib bulk_markup "input" with
    | BulkReturn true => validate_sanitize_bulk example_lib bulk_example "input"
    | r => r
    end.
Proof. apply (validate_sanitize_bulk_app example_lib bulk_markup bulk_example "input"). done. Defined.

Lemma get_posts_lists_selection_witness :
  ∃ views sorted w',
    get_posts example_lib (Some (py "alice")) hello_request two_posts
    = (Ok (jsonify_posts views), w')
    ∧ posts w' = posts two_posts ∧ fs w' = fs two_posts
    ∧ sorted ≡ₚ selected (Some (py "alice")) (posts two_posts)
    ∧ StronglySorted newer_first sorted
    ∧ Forall2 (λ p v, enrich example_lib p = Some v) sorted views.
Proof.
  apply (get_posts_lists_selection_newest_first example_lib (Some (py "alice"))
           hello_request two_posts).
  - apply two_posts_reachable.
  - vm_compute. discriminate.
Defined.

Lemma listed_post_can_be_deleted_witness :
  ∃ p l1 l2,
    enrich example_lib p = Some alice_view
    ∧ posts three_posts_listed = l1 ++ p :: l2
    ∧ delete_post (alice_delete (oid 2)) later three_posts_listed =
        (Ok (redirect (py "/")),
         {| posts := l1 ++ l2;
            fs := List.filter
                    (λ f, negb (bool_decide (Some (file__id f) = attachment_ref p)))
                    (fs three_posts_listed);
            calls := calls three_posts_listed
                     ++ [posts_find_one (post__id p)
                           (current_user_id (alice_delete (oid 2)));
                         fs_delete (attachment_ref p);
                         posts_delete_one (post__id p)
                           (current_user_id (alice_delete (oid 2)))] |}).
Proof.
  eapply (listed_post_can_be_deleted example_lib None hello_request
            (alice_delete (oid 2)) later three_posts _ three_posts_listed alice_view).
  - apply three_posts_reachable.
  - intros p Hp He. rewrite three_posts_posts in Hp.
    apply elem_of_cons in Hp as [ -> |Hp].
    { split; [reflexivity|]. right. eexists. split; reflexivity. }
    apply elem_of_cons in Hp as [ -> |Hp]; [vm_compute in He; discriminate|].
    apply elem_of_cons in Hp as [ -> |Hp]; [vm_compute in He; discriminate|].
    by apply elem_of_nil in Hp.
  - vm_compute. reflexivity.
  - vm_compute. do 2 apply list_elem_of_further. apply list_elem_of_here.
  - vm_compute. reflexivity.
  - vm_compute. discriminate.
  - vm_compute. reflexivity.
  - vm_compute. reflexivity.
Defined.

Lemma malformed_id_raises_witness :
  update_post example_lib malformed_id_request later two_posts
  = (Raise (InvalidId (py "xyz")), two_posts)
  ∧ delete_post malformed_id_request later two_posts
    = (Raise (InvalidId (py "xyz")), two_posts)
  ∧ delete_post malformed_attachment_request later two_posts
    = (Raise (InvalidId (py "xyz")), two_posts).
Proof.
  split; [|split].
  - apply (malformed_id_raises example_lib malformed_id_request later two_posts (py "xyz")).
    + vm_compute. discriminate.
    + vm_compute. reflexivity.
    + vm_compute. reflexivity.
  - apply (malformed_id_raises example_lib malformed_id_request later two_posts (py "xyz")).
    + vm_compute. discriminate.
    + vm_compute. reflexivity.
    + vm_compute. reflexivity.
  - apply (malformed_id_raises example_lib malformed_attachment_request later two_posts
             (py "xyz")) with (pid := oid 1).
    + vm_compute. discriminate.
    + vm_compute. reflexivity.
    + vm_compute. reflexivity.
    + vm_compute. reflexivity.
    + vm_compute. discriminate.
Defined.

Lemma create_post_rejects_content_witness :
  create_post example_lib blank_request later two_posts
  = (Ok (jsonify_error (py "Post content is required") 400), two_posts)
  ∧ create_post example_lib markup_request later two_posts
    = (Ok (jsonify_error (py "Invalid data") 400), two_posts).
Proof.
  split.
  - apply (create_post_rejects_content example_lib blank_request later two_posts no_file).
    + vm_compute. discriminate.
    + vm_compute. reflexivity.
    + vm_compute. reflexivity.
  - apply (create_post_rejects_content example_lib markup_request later two_posts no_file).
    + vm_compute. discriminate.
    + vm_compute. reflexivity.
    + vm_compute. discriminate.
    + vm_compute. reflexivity.
Defined.

Lemma later_ids_fresh :
  (new_file_id later ∉ map file__id (fs two_posts))
  ∧ (new_post_id later ∉ map post__id (posts two_posts)).
Proof. split; apply (bool_decide_unpack _); vm_compute; exact I. Qed.

Lemma create_post_with_accepted_upload_witness :
  ∃ enc,
    utf8_encode (form_content bird_request) = Some enc
    ∧ create_post example_lib bird_request later two_posts =
        (Ok (redirect (py "/")),
         {| posts := posts two_posts
                     ++ [new_post bird_request later (b64encode enc)
                           (VObjectId (new_file_id later))];
            fs := fs two_posts ++ [stored_blob example_lib later (png_file "bird.png")];
            calls := calls two_posts
                     ++ [fs_put (stream (png_file "bird.png"))
                           (secure_filename example_lib (filename (png_file "bird.png")))
                           (magic_from_buffer example_lib (stream (png_file "bird.png")))]
                     ++ [posts_insert_one
                           (new_post bird_request later (b64encode enc)
                              (VObjectId (new_file_id later)))] |}).
Proof.
  apply (create_post_with_accepted_upload example_lib bird_request later two_posts
           (png_file "bird.png")).
  - vm_compute. discriminate.
  - vm_compute. reflexivity.
  - vm_compute. reflexivity.
  - vm_compute. reflexivity.
  - vm_compute. reflexivity.
  - apply later_ids_fresh.
  - apply later_ids_fresh.
Defined.

Lemma create_post_keeps_blob_witness :
  (create_post example_lib bird_request clashing two_posts).1
  = Ok (jsonify_error (py "Failed to create post") 500)
  ∧ posts (create_post example_lib bird_request clashing two_posts).2 = posts two_posts
  ∧ fs (create_post example_lib bird_request clashing two_posts).2
    = fs two_posts ++ [stored_blob example_lib clashing (png_file "bird.png")].
Proof.
  apply (create_post_keeps_blob_when_insert_fails example_lib bird_request clashing
           two_posts (png_file "bird.png")).
  - vm_compute. discriminate.
  - vm_compute. reflexivity.
  - vm_compute. reflexivity.
  - vm_compute. reflexivity.
  - vm_compute. reflexivity.
  - apply later_ids_fresh.
  - rewrite two_posts_posts. apply list_elem_of_here.
Defined.

Lemma owner_update_replaces_content_witness :
  ∃ enc l1 l2,
    utf8_encode (form_content alice_update) = Some enc
    ∧ decode_content (b64encode enc) = Some (form_content alice_update)
    ∧ posts two_posts = l1 ++ alice_post :: l2
    ∧ update_post example_lib alice_update later two_posts =
        (Ok (redirect (py "/")),
         {| posts := l1 ++ with_content alice_post (b64encode enc) :: l2;
            fs := fs two_posts;
            calls := calls two_posts
                     ++ [posts_update_one (post__id alice_post)
                           (current_user_id alice_update) (content_fields enc)] |}).
Proof.
  apply (owner_update_replaces_content example_lib alice_update later two_posts
           alice_post (ObjectId_str (oid 1))).
  - apply (reachable_unique_ids example_lib), two_posts_reachable.
  - rewrite two_posts_posts. apply list_elem_of_here.
  - vm_compute. reflexivity.
  - vm_compute. discriminate.
  - vm_compute. reflexivity.
  - vm_compute. reflexivity.
  - vm_compute. reflexivity.
Defined.

Lemma owner_delete_removes_post_witness :
  ∃ l1 l2,
    posts two_posts = l1 ++ alice_post :: l2
    ∧ delete_post (alice_delete (oid 4)) later two_posts =
        (Ok (redirect (py "/")),
         {| posts := l1 ++ l2;
            fs := List.filter
                    (λ f, negb (bool_decide (Some (file__id f) = Some (oid 4))))
                    (fs two_posts);
            calls := calls two_posts
                     ++ [posts_find_one (post__id alice_post)
                           (current_user_id (alice_delete (oid 4)));
                         fs_delete (Some (oid 4));
                         posts_delete_one (post__id alice_post)
                           (current_user_id (alice_delete (oid 4)))] |}).
Proof.
  apply (owner_delete_removes_post_and_named_blob (alice_delete (oid 4)) later
           two_posts alice_post (ObjectId_str (oid 1)) (Some (oid 4))).
  - apply (reachable_unique_ids example_lib), two_posts_reachable.
  - rewrite two_posts_posts. apply list_elem_of_here.
  - vm_compute. reflexivity.
  - vm_compute. discriminate.
  - vm_compute. reflexivity.
  - vm_compute. reflexivity.
  - unfold resolves_attachment. rewrite decide_False by (vm_compute; discriminate).
    exists (oid 4). split; [done|]. vm_compute. reflexivity.
Defined.

